(** * Pomodoro timer with tab title and favicon feedback (src/src/App.jsx)

    A shallow embedding of the React component [App]: the countdown engine
    (state, refs, the countdown effect and its two scheduling mechanisms), the
    title effect, the clip-path geometry and the favicon installer, followed by
    the properties the specification states about them.

    Conventions.
    - JavaScript numbers that hold integers (seconds, millisecond timestamps,
      timer handles) are [Z] or [positive]; every intermediate value of the
      engine is an integer far below 2^53, and for such a [remaining] the
      double [remaining / 1000] rounds to a whole number only when it is one,
      so [Math.ceil(remaining / 1000)] is the exact integer ceiling.
    - [progress] and the polygon coordinates are real numbers ([R]); the clip
      path is kept as its list of vertices, in percent, instead of the CSS
      text that prints them.
    - One event handler, the re-render it causes and the effects of that
      render run to completion before the next event is taken (the browser's
      single-threaded event loop); the state updates of one handler are
      batched into one render; [Date.now()] is read once per event. *)

From Stdlib Require Import ZArith List String Ascii Bool Lia Reals Lra.
Import ListNotations.

(* ================================================================== *)
(** ** Countdown engine *)
(* ================================================================== *)

Module Engine.
Local Open Scope Z_scope.

(** [const totalTime = 25 * 60] *)
Definition totalTime : Z := 25 * 60.

(** The values of the component state a callback closes over: the ones of
    the render that created it. *)
Record closure : Type := mkClosure {
  c_isActive : bool;
  c_timeRemaining : Z
}.

(** Identifiers returned by [requestAnimationFrame], [setInterval] and, for
    bookkeeping, [addEventListener]; always non-zero, hence truthy. *)
Definition handle : Type := positive.

(** Component state ([useState]), refs ([useRef]), what the browser holds
    for the component (requested frames, live intervals, visibilitychange
    listeners, each with the closure of its callback), the cleanup function
    React keeps for the countdown effect, and [document.title]. *)
Record world : Type := mkWorld {
  isActive : bool;
  timeRemaining : Z;
  timerEndRef : option Z;
  rafIdRef : option handle;
  intervalIdRef : option handle;
  frames : list (handle * closure);
  intervals : list (handle * closure);
  listeners : list (handle * closure);
  cleanup : option handle;
  nextHandle : handle;
  title : string
}.

Definition set_isActive (b : bool) (w : world) : world :=
  mkWorld b (timeRemaining w) (timerEndRef w) (rafIdRef w) (intervalIdRef w)
          (frames w) (intervals w) (listeners w) (cleanup w) (nextHandle w) (title w).

Definition set_timeRemaining (r : Z) (w : world) : world :=
  mkWorld (isActive w) r (timerEndRef w) (rafIdRef w) (intervalIdRef w)
          (frames w) (intervals w) (listeners w) (cleanup w) (nextHandle w) (title w).

Definition set_timerEndRef (d : option Z) (w : world) : world :=
  mkWorld (isActive w) (timeRemaining w) d (rafIdRef w) (intervalIdRef w)
          (frames w) (intervals w) (listeners w) (cleanup w) (nextHandle w) (title w).

Definition set_rafIdRef (h : option handle) (w : world) : world :=
  mkWorld (isActive w) (timeRemaining w) (timerEndRef w) h (intervalIdRef w)
          (frames w) (intervals w) (listeners w) (cleanup w) (nextHandle w) (title w).

Definition set_intervalIdRef (h : option handle) (w : world) : world :=
  mkWorld (isActive w) (timeRemaining w) (timerEndRef w) (rafIdRef w) h
          (frames w) (intervals w) (listeners w) (cleanup w) (nextHandle w) (title w).

Definition set_frames (l : list (handle * closure)) (w : world) : world :=
  mkWorld (isActive w) (timeRemaining w) (timerEndRef w) (rafIdRef w) (intervalIdRef w)
          l (intervals w) (listeners w) (cleanup w) (nextHandle w) (title w).

Definition set_intervals (l : list (handle * closure)) (w : world) : world :=
  mkWorld (isActive w) (timeRemaining w) (timerEndRef w) (rafIdRef w) (intervalIdRef w)
          (frames w) l (listeners w) (cleanup w) (nextHandle w) (title w).

Definition set_listeners (l : list (handle * closure)) (w : world) : world :=
  mkWorld (isActive w) (timeRemaining w) (timerEndRef w) (rafIdRef w) (intervalIdRef w)
          (frames w) (intervals w) l (cleanup w) (nextHandle w) (title w).

Definition set_cleanup (c : option handle) (w : world) : world :=
  mkWorld (isActive w) (timeRemaining w) (timerEndRef w) (rafIdRef w) (intervalIdRef w)
          (frames w) (intervals w) (listeners w) c (nextHandle w) (title w).

Definition set_nextHandle (n : handle) (w : world) : world :=
  mkWorld (isActive w) (timeRemaining w) (timerEndRef w) (rafIdRef w) (intervalIdRef w)
          (frames w) (intervals w) (listeners w) (cleanup w) n (title w).

Definition set_title (t : string) (w : world) : world :=
  mkWorld (isActive w) (timeRemaining w) (timerEndRef w) (rafIdRef w) (intervalIdRef w)
          (frames w) (intervals w) (listeners w) (cleanup w) (nextHandle w) t.

(** *** JavaScript coercions of [timerEndRef.current] *)

(** [null - now] is [0 - now]. *)
Definition to_number (d : option Z) : Z :=
  match d with Some z => z | None => 0 end.

(** [!timerEndRef.current] is true for [null] and for [0]. *)
Definition truthy (d : option Z) : bool :=
  match d with Some z => negb (z =? 0) | None => false end.

(** [Math.ceil(a / b)] on integers, [b > 0]. *)
Definition ceil_div (a b : Z) : Z := - ((- a) / b).

(** *** Number formatting: [toString], [padStart], [formatTime] *)

Definition digit (n : Z) : ascii :=
  match n with
  | 0 => "0" | 1 => "1" | 2 => "2" | 3 => "3" | 4 => "4"
  | 5 => "5" | 6 => "6" | 7 => "7" | 8 => "8" | _ => "9"
  end%char.

(** Decimal digits of a non-negative integer, most significant first. *)
Fixpoint digits (fuel : nat) (n : Z) (acc : string) : string :=
  match fuel with
  | O => acc
  | S f =>
      let acc' := String (digit (n mod 10)) acc in
      if n <? 10 then acc' else digits f (n / 10) acc'
  end.

(** A number of binary digits bounds the number of decimal ones. *)
Definition digits_fuel (n : Z) : nat := S (Z.to_nat (Z.log2 n)).

(** [Number.prototype.toString()] on an integer. *)
Definition toString (n : Z) : string :=
  if n <? 0 then String "-"%char (digits (digits_fuel (- n)) (- n) EmptyString)
  else digits (digits_fuel n) n EmptyString.

Fixpoint replicate (n : nat) (c : ascii) : string :=
  match n with O => EmptyString | S k => String c (replicate k c) end.

(** [s.padStart(target, pad)] with a one-character pad. *)
Definition padStart (target : nat) (pad : ascii) (s : string) : string :=
  if Nat.ltb (String.length s) target
  then append (replicate (target - String.length s) pad) s
  else s.

(** [formatTime]: [Math.floor(seconds / 60)] and [seconds % 60] (the
    remainder takes the sign of [seconds]), each padded to two characters. *)
Definition formatTime (seconds : Z) : string :=
  let mins := seconds / 60 in
  let secs := Z.rem seconds 60 in
  append (padStart 2 "0"%char (toString mins))
         (append ":" (padStart 2 "0"%char (toString secs))).

(** *** Title effect (lines 39-54) *)

Definition titleEffect (w : world) : world :=
  if negb (isActive w) && (timeRemaining w =? 25 * 60) then
    set_title "Pomodoro Timer" w
  else if negb (isActive w) then
    set_title (append (formatTime (timeRemaining w)) " - Paused") w
  else
    set_title (append (formatTime (timeRemaining w)) " - Pomodoro") w.

(** *** Browser scheduling primitives *)

Definition drop (h : handle) (l : list (handle * closure)) : list (handle * closure) :=
  filter (fun e => negb (Pos.eqb (fst e) h)) l.

Fixpoint lookup (h : handle) (l : list (handle * closure)) : option closure :=
  match l with
  | [] => None
  | (h', c) :: l' => if Pos.eqb h' h then Some c else lookup h l'
  end.

(** [cancelAnimationFrame(id)]; a [null] id cancels nothing. *)
Definition cancelAnimationFrame (id : option handle) (w : world) : world :=
  match id with
  | Some h => set_frames (drop h (frames w)) w
  | None => w
  end.

Definition clearInterval (h : handle) (w : world) : world :=
  set_intervals (drop h (intervals w)) w.

Definition removeEventListener (l : handle) (w : world) : world :=
  set_listeners (drop l (listeners w)) w.

Definition fresh (w : world) : handle * world :=
  (nextHandle w, set_nextHandle (Pos.succ (nextHandle w)) w).

(** [requestAnimationFrame(rafLoop)], [rafLoop] closing over [c]. *)
Definition requestAnimationFrame (c : closure) (w : world) : handle * world :=
  let (h, w1) := fresh w in (h, set_frames (frames w1 ++ [(h, c)]) w1).

(** [setInterval(updateTimer, 1000)], [updateTimer] closing over [c]. *)
Definition setInterval (c : closure) (w : world) : handle * world :=
  let (h, w1) := fresh w in (h, set_intervals (intervals w1 ++ [(h, c)]) w1).

(** [document.addEventListener('visibilitychange', handleVisibilityChange)]. *)
Definition addEventListener (c : closure) (w : world) : handle * world :=
  let (h, w1) := fresh w in (h, set_listeners (listeners w1 ++ [(h, c)]) w1).

(** *** [updateTimer] (lines 201-225) and [rafLoop] (lines 228-233) *)

Definition updateTimer (c : closure) (now : Z) (w : world) : world :=
  let remaining := Z.max 0 (to_number (timerEndRef w) - now) in
  let newRemainingSeconds := ceil_div remaining 1000 in
  let w1 :=
    if negb (newRemainingSeconds =? c_timeRemaining c)
    then set_timeRemaining newRemainingSeconds w
    else w in
  if newRemainingSeconds <=? 0 then
    let w2 := set_isActive false w1 in
    let w3 := set_timerEndRef None w2 in
    let w4 := set_rafIdRef None (cancelAnimationFrame (rafIdRef w3) w3) in
    match intervalIdRef w4 with
    | Some h => set_intervalIdRef None (clearInterval h w4)
    | None => w4
    end
  else w1.

Definition rafLoop (c : closure) (now : Z) (w : world) : world :=
  let w1 := updateTimer c now w in
  if c_isActive c && (0 <? c_timeRemaining c) then
    let (h, w2) := requestAnimationFrame c w1 in
    set_rafIdRef (Some h) w2
  else w1.

(** *** Countdown effect (lines 181-267) *)

(** "Cleanup previous timers", at the head of the effect and again in the
    function it returns. *)
Definition clearTimers (w : world) : world :=
  let w1 :=
    match rafIdRef w with
    | Some h => set_rafIdRef None (cancelAnimationFrame (Some h) w)
    | None => w
    end in
  match intervalIdRef w1 with
  | Some h => set_intervalIdRef None (clearInterval h w1)
  | None => w1
  end.

(** The function the effect returns when it armed the timers; [l] is the
    listener that run registered. *)
Definition countdownCleanup (l : handle) (w : world) : world :=
  removeEventListener l (clearTimers w).

(** The effect body, run for the render whose state is that of [w]. *)
Definition countdownEffect (now : Z) (w : world) : world :=
  let c := mkClosure (isActive w) (timeRemaining w) in
  let w1 := clearTimers w in
  if isActive w && (0 <? timeRemaining w) then
    let w2 :=
      if negb (truthy (timerEndRef w1))
      then set_timerEndRef (Some (now + timeRemaining w * 1000)) w1
      else w1 in
    let (h1, w3) := requestAnimationFrame c w2 in
    let w4 := set_rafIdRef (Some h1) w3 in
    let (h2, w5) := setInterval c w4 in
    let w6 := set_intervalIdRef (Some h2) w5 in
    let (l, w7) := addEventListener c w6 in
    set_cleanup (Some l) w7
  else set_cleanup None w1.

(** *** Control functions (lines 270-286) *)

Definition startTimer (now : Z) (w : world) : world :=
  set_isActive true (set_timerEndRef (Some (now + timeRemaining w * 1000)) w).

Definition pauseTimer (w : world) : world :=
  set_isActive false w.

Definition resetTimer (w : world) : world :=
  set_timerEndRef None (set_timeRemaining (25 * 60) (set_isActive false w)).

(** *** React: mount, re-render, commit *)

(** Effects of a committed render whose dependencies [isActive],
    [timeRemaining] changed: the pending cleanup of the countdown effect,
    then the title effect and the countdown effect. *)
Definition commit (now : Z) (w : world) : world :=
  let w1 := match cleanup w with Some l => countdownCleanup l w | None => w end in
  countdownEffect now (titleEffect w1).

(** After a handler ran on [old] and left [w]: a state change re-renders
    and commits, setting a state to the value it has does not. *)
Definition rerender (now : Z) (old w : world) : world :=
  if Bool.eqb (isActive old) (isActive w) && (timeRemaining old =? timeRemaining w)
  then w else commit now w.

(** The component after its first render and effects. *)
Definition mount (now : Z) : world :=
  countdownEffect now
    (titleEffect (mkWorld false (25 * 60) None None None [] [] [] None 1%positive EmptyString)).

(** *** Events *)

Inductive event : Type :=
| ClickStart                 (* the Start button, rendered when [!isActive] *)
| ClickPause                 (* the Pause button, rendered when [isActive] *)
| ClickReset                 (* the Reset button, always rendered *)
| Frame (h : handle)         (* the browser runs requested frame [h] *)
| Interval (h : handle)      (* interval [h] elapses *)
| Visible.                   (* visibilitychange, document now visible *)

(** The visibilitychange listeners registered when the event is dispatched
    each run [updateTimer]. *)
Definition dispatchVisible (now : Z) (w : world) : world :=
  fold_left (fun acc e => updateTimer (snd e) now acc) (listeners w) w.

(** One event at wall-clock time [now]; [None] when the browser cannot
    deliver it (button not rendered, frame or interval not pending). *)
Definition step (now : Z) (ev : event) (w : world) : option world :=
  match ev with
  | ClickStart =>
      if isActive w then None else Some (rerender now w (startTimer now w))
  | ClickPause =>
      if isActive w then Some (rerender now w (pauseTimer w)) else None
  | ClickReset => Some (rerender now w (resetTimer w))
  | Frame h =>
      match lookup h (frames w) with
      | Some c => Some (rerender now w (rafLoop c now (set_frames (drop h (frames w)) w)))
      | None => None
      end
  | Interval h =>
      match lookup h (intervals w) with
      | Some c => Some (rerender now w (updateTimer c now w))
      | None => None
      end
  | Visible => Some (rerender now w (dispatchVisible now w))
  end.

(** A timed trace of events. *)
Fixpoint run (tr : list (Z * event)) (w : world) : option world :=
  match tr with
  | [] => Some w
  | (now, ev) :: tr' =>
      match step now ev w with
      | Some w' => run tr' w'
      | None => None
      end
  end.

(** States the component can be in: those some trace reaches from a mount. *)
Definition reachable (w : world) : Prop :=
  exists t0 tr, run tr (mount t0) = Some w.

(** Timestamps of a trace never decrease, starting from [t]. *)
Fixpoint monotone (t : Z) (tr : list (Z * event)) : Prop :=
  match tr with
  | [] => True
  | (now, _) :: tr' => t <= now /\ monotone now tr'
  end.

(** The time of the last event of a trace that starts at [t]. *)
Fixpoint last_time (t : Z) (tr : list (Z * event)) : Z :=
  match tr with
  | [] => t
  | (now, _) :: tr' => last_time now tr'
  end.

Definition is_tick (ev : event) : bool :=
  match ev with Frame _ | Interval _ | Visible => true | _ => false end.

Definition is_reset (ev : event) : bool :=
  match ev with ClickReset => true | _ => false end.

(** *** Invariants of the engine *)

(** The text the title effect writes for a render. *)
Definition titleText (b : bool) (r : Z) : string :=
  if negb b && (r =? 25 * 60) then "Pomodoro Timer"%string
  else if negb b then append (formatTime r) " - Paused"
  else append (formatTime r) " - Pomodoro".

(** What a commit leaves behind, by the state it renders: the timers armed
    afresh with handles from [n] on, or nothing pending. *)
Definition settle (now : Z) (b : bool) (r : Z) (d : option Z) (n : handle) : world :=
  let c := mkClosure b r in
  if b && (0 <? r) then
    mkWorld b r (if truthy d then d else Some (now + r * 1000))
            (Some n) (Some (Pos.succ n))
            [(n, c)] [(Pos.succ n, c)] [(Pos.succ (Pos.succ n), c)]
            (Some (Pos.succ (Pos.succ n))) (Pos.succ (Pos.succ (Pos.succ n)))
            (titleText b r)
  else mkWorld b r d None None [] [] [] None n (titleText b r).

(** Shape of every state between two events.  While [isActive] holds with
    time remaining, exactly one frame, one interval and one listener are
    live, the refs name them, and each callback closes over the current
    state; otherwise nothing is pending.  The title is the one of the
    current state. *)
Inductive wf : world -> Prop :=
| wf_armed (r : Z) (d : option Z) (h1 h2 l n : handle) :
    0 < r ->
    wf (mkWorld true r d (Some h1) (Some h2)
                [(h1, mkClosure true r)] [(h2, mkClosure true r)]
                [(l, mkClosure true r)] (Some l) n (titleText true r))
| wf_idle (b : bool) (r : Z) (d : option Z) (n : handle) :
    b && (0 <? r) = false ->
    wf (mkWorld b r d None None [] [] [] None n (titleText b r)).

(** The part of a state the engine's arithmetic depends on. *)
Definition view (w : world) : bool * Z * option Z :=
  (isActive w, timeRemaining w, timerEndRef w).

(** What one tick makes of a running countdown: the seconds left until
    the deadline; at zero the countdown stops and the deadline is cleared.
    (Were the deadline falsy, the effect of the next render would take a
    new one.) *)
Definition tick_view (now r : Z) (d : option Z) : bool * Z * option Z :=
  let x := ceil_div (Z.max 0 (to_number d - now)) 1000 in
  if x <=? 0 then (false, x, None)
  else (true, x, if (x =? r) || truthy d then d else Some (now + x * 1000)).

(** The effect of a delivered event on the view of a well-formed state. *)
Definition step_view (now : Z) (ev : event) (v : bool * Z * option Z)
  : bool * Z * option Z :=
  let '(b, r, d) := v in
  match ev with
  | ClickStart => (true, r, Some (now + r * 1000))
  | ClickPause => (false, r, d)
  | ClickReset => (false, 25 * 60, None)
  | Frame _ | Interval _ | Visible =>
      if b && (0 <? r) then tick_view now r d else v
  end.

(** At wall-clock time [t]: the remaining seconds lie in [0, totalTime],
    and a running countdown's deadline is at most that many seconds away. *)
Definition bounded (t : Z) (w : world) : Prop :=
  0 <= timeRemaining w <= totalTime /\
  (isActive w && (0 <? timeRemaining w) = true ->
   to_number (timerEndRef w) <= t + timeRemaining w * 1000).

(** A run segment with deadline [D], seen at time [t]: still counting down
    towards [D], or stopped by a tick that found [D] passed. *)
Inductive segment (D t : Z) : world -> Prop :=
| seg_running (w : world) :
    view w = (true, timeRemaining w, Some D) -> 0 < timeRemaining w ->
    segment D t w
| seg_done (w : world) :
    view w = (false, 0, None) -> D <= t ->
    segment D t w.

(** The countdown stands at zero with no callback pending. *)
Definition halted (w : world) : Prop :=
  timeRemaining w = 0 /\ frames w = [] /\ intervals w = [] /\ listeners w = [].

Definition all_ticks (tr : list (Z * event)) : bool :=
  forallb (fun e => is_tick (snd e)) tr.

Definition no_reset (tr : list (Z * event)) : bool :=
  forallb (fun e => negb (is_reset (snd e))) tr.

End Engine.

(* ================================================================== *)
(** ** The title as the specification words it *)
(* ================================================================== *)

Module Spec.
Local Open Scope Z_scope.

(** A number of minutes or seconds, zero-padded to two digits. *)
Definition two_digits (n : Z) : string :=
  if n <? 10 then String "0"%char (Engine.toString n) else Engine.toString n.

(** "mm:ss is zero-padded minutes:seconds of remainingSeconds". *)
Definition mmss (remainingSeconds : Z) : string :=
  append (two_digits (remainingSeconds / 60))
         (append ":" (two_digits (remainingSeconds mod 60))).

(** "if isRunning=false and remainingSeconds=totalSeconds -> fixed label.
    Else if not running -> {mm:ss} - Paused.  Else -> {mm:ss} - Pomodoro." *)
Definition title (isRunning : bool) (remainingSeconds : Z) : string :=
  if negb isRunning && (remainingSeconds =? Engine.totalTime) then "Pomodoro Timer"%string
  else if negb isRunning then append (mmss remainingSeconds) " - Paused"
  else append (mmss remainingSeconds) " - Pomodoro".

End Spec.

(* ================================================================== *)
(** ** Progress and the clip-path polygon (lines 30, 307-317) *)
(* ================================================================== *)

Module Geometry.
Local Open Scope R_scope.

(** [const progress = 1 - (timeRemaining / totalTime)] *)
Definition progress (timeRemaining : Z) : R :=
  1 - IZR timeRemaining / IZR Engine.totalTime.

(** A vertex [x% y%] of the polygon: percent of the box width from the
    left and of its height from the top. *)
Definition point : Type := (R * R)%type.

Definition center : point := (50, 50).
Definition top : point := (50, 0).
Definition top_right : point := (100, 0).
Definition bottom_right : point := (100, 100).
Definition bottom_left : point := (0, 100).
Definition top_left : point := (0, 0).

(** The vertices computed from the tangent of the angular offset, one per
    edge of the box, as the template literals of lines 311-315 write them. *)
Definition top_edge_out (p : R) : point := (50 + 50 * tan (p * 2 * PI), 0).
Definition right_edge (p : R) : point := (100, 50 - 50 * tan ((p - 0.25) * 2 * PI)).
Definition bottom_edge (p : R) : point := (50 - 50 * tan ((p - 0.5) * 2 * PI), 100).
Definition left_edge (p : R) : point := (0, 50 + 50 * tan ((p - 0.75) * 2 * PI)).
Definition top_edge_back (p : R) : point := (50 - 50 * tan ((p - 1) * 2 * PI), 0).

(** [getProgressClipPath], for the progress of the current render. *)
Definition getProgressClipPath (progress : R) : list point :=
  [ center;
    top;
    if Rgt_dec progress 0.125 then top_right else top_edge_out progress;
    if Rgt_dec progress 0.375 then bottom_right
    else if Rgt_dec progress 0.125 then right_edge progress else center;
    if Rgt_dec progress 0.625 then bottom_left
    else if Rgt_dec progress 0.375 then bottom_edge progress else center;
    if Rgt_dec progress 0.875 then top_left
    else if Rgt_dec progress 0.625 then left_edge progress else center;
    if Rgt_dec progress 0.875 then top_edge_back progress else center ].

(** The fourth, fifth, ... vertex of a polygon (counting from 0). *)
Definition vertex (i : nat) (poly : list point) : point := nth i poly center.

(** Signed area of a closed polygon by the shoelace formula, used to say
    what "zero area" and "covers the whole box" mean. *)
Definition cross (a b : point) : R := fst a * snd b - fst b * snd a.

Fixpoint shoelace (first : point) (poly : list point) : R :=
  match poly with
  | [] => 0
  | a :: rest =>
      match rest with
      | [] => cross a first
      | b :: _ => cross a b + shoelace first rest
      end
  end.

Definition area (poly : list point) : R :=
  match poly with
  | [] => 0
  | first :: _ => Rabs (shoelace first poly) / 2
  end.

End Geometry.

(* ================================================================== *)
(** ** Favicon installation (lines 116-170) *)
(* ================================================================== *)

Module Favicon.
Local Open Scope string_scope.

(** A DOM element, by its local name (lower case for the elements of an
    HTML document) and the attributes the installer reads and writes; an
    attribute that is not set is the empty string. *)
Record element : Type := mkElement {
  tag : string;
  rel : string;
  href : string;
  sizes : string
}.

(** The children of [document.head], in order, and the elements anywhere
    else in the document (after the head in document order). *)
Record document : Type := mkDocument {
  head : list element;
  elsewhere : list element
}.

(** Substring test, for the attribute selector [rel*='icon']. *)
Fixpoint contains (needle s : string) : bool :=
  String.prefix needle s ||
  match s with
  | EmptyString => false
  | String _ s' => contains needle s'
  end.

(** ASCII lower case: [A]-[Z] to [a]-[z], every other character as it is. *)
Definition ascii_lower (c : ascii) : ascii :=
  let n := nat_of_ascii c in
  if Nat.leb 65 n && Nat.leb n 90 then ascii_of_nat (n + 32) else c.

Fixpoint lower (s : string) : string :=
  match s with
  | EmptyString => EmptyString
  | String c s' => String (ascii_lower c) (lower s')
  end.

(** The selector [link[rel*='icon']].  In an HTML document the value of
    [rel] is compared ASCII case-insensitively, so [rel='ICON'] and
    [rel='Shortcut Icon'] are selected as well. *)
Definition is_icon_link (e : element) : bool :=
  String.eqb (tag e) "link" && contains "icon" (lower (rel e)).


(** What the attempt wrote to the console: [console.log] at the end of the
    [try] block, or [console.error] in the [catch]. *)
Inductive outcome : Type := Updated | Failed.

Section Install.

(** [createDonutTimerDataURL(isRunning, progress, size)]: the PNG data URL
    the canvas of the hosting browser produces, [None] when the canvas
    calls throw (for instance [getContext('2d')] returning [null]). *)
Variable createDonutTimerDataURL : bool -> R -> Z -> option string.

(** [updateFaviconInBrowser] for a render with the given [isActive] and
    [progress].  [querySelectorAll] searches the whole document while
    [document.head.removeChild] removes children of the head only: the
    matches in the head are removed in turn, and the first match elsewhere
    makes [removeChild] throw; the [catch] ends the attempt there. *)
Definition updateFaviconInBrowser (isActive : bool) (progress : R)
    (doc : document) : document * outcome :=
  match createDonutTimerDataURL isActive progress 32 with
  | None => (doc, Failed)
  | Some favicon32 =>
      match createDonutTimerDataURL isActive progress 16 with
      | None => (doc, Failed)
      | Some favicon16 =>
          let doc1 :=
            mkDocument (filter (fun e => negb (is_icon_link e)) (head doc))
                       (elsewhere doc) in
          if existsb is_icon_link (elsewhere doc) then (doc1, Failed)
          else
            let mainIcon := mkElement "link" "icon" favicon32 "32x32" in
            let smallIcon := mkElement "link" "icon" favicon16 "16x16" in
            let shortcutIcon := mkElement "link" "shortcut icon" favicon32 "" in
            (mkDocument (head doc1 ++ [mainIcon; smallIcon; shortcutIcon])
                        (elsewhere doc1),
             Updated)
      end
  end.



(** The three links one successful attempt installs. *)
Definition installed (favicon32 favicon16 : string) : list element :=
  [ mkElement "link" "icon" favicon32 "32x32";
    mkElement "link" "icon" favicon16 "16x16";
    mkElement "link" "shortcut icon" favicon32 "" ].

End Install.

End Favicon.

(* ================================================================== *)
(** ** The clip path inside its box *)
(* ================================================================== *)

(** A vertex that lies within the element's box, 0% to 100% on both axes. *)
Definition in_box (p : Geometry.point) : Prop :=
  (0 <= fst p <= 100 /\ 0 <= snd p <= 100)%R.

(* ================================================================== *)
(** ** The favicon effect and its retries (lines 116-170) *)
(* ================================================================== *)

Module Retry.
Import Favicon.

(** What [updateFaviconInBrowser] closes over: [isActive] and [progress] of
    the render that created it. *)
Record shot : Type := mkShot {
  s_isActive : bool;
  s_progress : R
}.

(** The document, the [setTimeout] callbacks the browser still holds (id,
    delay in milliseconds, closure), the ids the cleanup function kept by
    React will clear, and the next timer id. *)
Record page : Type := mkPage {
  doc : document;
  timeouts : list (positive * Z * shot);
  cleanupIds : list positive;
  nextId : positive
}.

Section Effect.

Variable createDonutTimerDataURL : bool -> R -> Z -> option string.

(** [clearTimeout(id)]; an id that already fired clears nothing. *)
Definition clearTimeout (id : positive) (p : page) : page :=
  mkPage (doc p)
         (filter (fun e => negb (Pos.eqb (fst (fst e)) id)) (timeouts p))
         (cleanupIds p) (nextId p).

(** [setTimeout(updateFaviconInBrowser, delay)]. *)
Definition setTimeout (c : shot) (delay : Z) (p : page) : positive * page :=
  (nextId p,
   mkPage (doc p) (timeouts p ++ [(nextId p, delay, c)]) (cleanupIds p)
          (Pos.succ (nextId p))).

(** One call of the closure [updateFaviconInBrowser] of shot [c]. *)
Definition runUpdate (c : shot) (p : page) : page :=
  mkPage (fst (updateFaviconInBrowser createDonutTimerDataURL
                 (s_isActive c) (s_progress c) (doc p)))
         (timeouts p) (cleanupIds p) (nextId p).

(** The function the effect returns: [clearTimeout] on both ids. *)
Definition effectCleanup (p : page) : page :=
  fold_left (fun acc id => clearTimeout id acc) (cleanupIds p) p.

(** The effect body (lines 157-169): update at once, retry after 100 ms
    and after 500 ms, and hand both ids to the cleanup. *)
Definition effectBody (c : shot) (p : page) : page :=
  let p1 := runUpdate c p in
  let (timeoutId1, p2) := setTimeout c 100 p1 in
  let (timeoutId2, p3) := setTimeout c 500 p2 in
  mkPage (doc p3) (timeouts p3) [timeoutId1; timeoutId2] (nextId p3).

Inductive event : Type :=
| Render (isActive : bool) (progress : R)  (* a commit whose dependencies changed *)
| Timeout (id : positive)                  (* the browser runs timeout [id] *)
| Unmount.

Fixpoint find (id : positive) (l : list (positive * Z * shot)) : option shot :=
  match l with
  | [] => None
  | (id', _, c) :: l' => if Pos.eqb id' id then Some c else find id l'
  end.

(** One event; [None] when the timeout is not pending. *)
Definition step (ev : event) (p : page) : option page :=
  match ev with
  | Render isActive progress =>
      Some (effectBody (mkShot isActive progress) (effectCleanup p))
  | Timeout id =>
      match find id (timeouts p) with
      | Some c => Some (runUpdate c (clearTimeout id p))
      | None => None
      end
  | Unmount =>
      let p1 := effectCleanup p in
      Some (mkPage (doc p1) (timeouts p1) [] (nextId p1))
  end.

Fixpoint run (evs : list event) (p : page) : option page :=
  match evs with
  | [] => Some p
  | ev :: evs' =>
      match step ev p with
      | Some p' => run evs' p'
      | None => None
      end
  end.

(** The page before the component mounts. *)
Definition initial (d : document) : page := mkPage d [] [] 1%positive.

(** The shot of the last render of a trace that began with shot [c]. *)
Fixpoint last_shot (c : shot) (evs : list event) : shot :=
  match evs with
  | [] => c
  | Render b p :: evs' => last_shot (mkShot b p) evs'
  | Timeout _ :: evs' => last_shot c evs'
  | Unmount :: evs' => last_shot c evs'
  end.

(** Every pending timeout belongs to shot [c] and is one the cleanup will
    clear; there are at most two. *)
Definition fresh_only (c : shot) (p : page) : Prop :=
  (forall id delay c', In (id, delay, c') (timeouts p) ->
     c' = c /\ In id (cleanupIds p)) /\
  (List.length (timeouts p) <= 2)%nat.

End Effect.

(** What holds of the page after an event when the canvas works and
    yields [png]: [c] being the last shot rendered, only its retries are
    pending, no icon link lies outside the head, and the icon links of
    the head are the three of [c]. *)
Definition settled (png : bool -> R -> Z -> string) (c : shot) (p : page) : Prop :=
  fresh_only c p /\
  existsb is_icon_link (elsewhere (doc p)) = false /\
  filter is_icon_link (head (doc p))
  = installed (png (s_isActive c) (s_progress c) 32%Z)
              (png (s_isActive c) (s_progress c) 16%Z).

End Retry.


(* ================================================================== *)
(** ** Properties of the countdown engine *)
(* ================================================================== *)

Section EngineProofs.
Import Engine.
Local Open Scope Z_scope.

(** Unfolding of the record plumbing, without touching arithmetic. *)
Ltac fields :=
  cbv beta iota zeta delta
    [set_isActive set_timeRemaining set_timerEndRef set_rafIdRef
     set_intervalIdRef set_frames set_intervals set_listeners set_cleanup
     set_nextHandle set_title
     isActive timeRemaining timerEndRef rafIdRef intervalIdRef frames
     intervals listeners cleanup nextHandle title
     c_isActive c_timeRemaining
     cancelAnimationFrame clearInterval removeEventListener
     requestAnimationFrame setInterval addEventListener fresh
     fst snd fold_left].

(** Unfolding of the boolean connectives. *)
Ltac bools := cbv beta iota delta [andb negb orb Bool.eqb].

Lemma ceil_div_bounds (a : Z) :
  1000 * ceil_div a 1000 - 1000 < a <= 1000 * ceil_div a 1000.
Proof.
  unfold ceil_div.
  pose proof (Z.div_mod (- a) 1000 ltac:(lia)).
  pose proof (Z.mod_pos_bound (- a) 1000 ltac:(lia)).
  lia.
Qed.

Lemma titleEffect_eq (w : world) :
  titleEffect w = set_title (titleText (isActive w) (timeRemaining w)) w.
Proof.
  unfold titleEffect, titleText.
  destruct (negb (isActive w) && (timeRemaining w =? 25 * 60)); [reflexivity|].
  destruct (negb (isActive w)); reflexivity.
Qed.

Lemma drop_single h (c : closure) : drop h [(h, c)] = [].
Proof. unfold drop, filter, fst. now rewrite Pos.eqb_refl. Qed.

Lemma drop_nil h : drop h [] = [].
Proof. reflexivity. Qed.

Lemma lookup_single h h1 (c c' : closure) :
  lookup h [(h1, c)] = Some c' -> h = h1 /\ c' = c.
Proof.
  unfold lookup. destruct (Pos.eqb_spec h1 h); [|discriminate].
  intros [= <-]. now subst.
Qed.

Lemma clearTimers_tidy b r d ra ia fr iv ls cl n t :
  (fr = [] \/ exists h c, ra = Some h /\ fr = [(h, c)]) ->
  (iv = [] \/ exists h c, ia = Some h /\ iv = [(h, c)]) ->
  clearTimers (mkWorld b r d ra ia fr iv ls cl n t)
  = mkWorld b r d None None [] [] ls cl n t.
Proof.
  intros Hf Hi.
  assert (Hd : forall h c, drop h [(h, c)] = []) by apply drop_single.
  destruct Hf as [-> | (h & c & -> & ->)], Hi as [-> | (h' & c' & -> & ->)];
    try destruct ra; try destruct ia;
    unfold clearTimers; fields; rewrite ?Hd; reflexivity.
Qed.

Lemma commit_settle now b r d ra ia fr iv ls cl n t :
  (fr = [] \/ exists h c, ra = Some h /\ fr = [(h, c)]) ->
  (iv = [] \/ exists h c, ia = Some h /\ iv = [(h, c)]) ->
  (cl = None /\ ls = [] \/ exists l c, cl = Some l /\ ls = [(l, c)]) ->
  commit now (mkWorld b r d ra ia fr iv ls cl n t) = settle now b r d n.
Proof.
  intros Hf Hi Hl.
  assert (Hc : match cl with
               | Some l => countdownCleanup l (mkWorld b r d ra ia fr iv ls cl n t)
               | None => mkWorld b r d ra ia fr iv ls cl n t
               end = mkWorld b r d
                       (match cl with Some _ => None | None => ra end)
                       (match cl with Some _ => None | None => ia end)
                       (match cl with Some _ => [] | None => fr end)
                       (match cl with Some _ => [] | None => iv end)
                       [] cl n t).
  { destruct Hl as [[-> ->] | (l & c & -> & ->)]; [reflexivity|].
    unfold countdownCleanup. rewrite clearTimers_tidy by assumption.
    fields. now rewrite drop_single. }
  unfold commit. fields. rewrite Hc. clear Hc.
  rewrite titleEffect_eq. unfold countdownEffect. fields.
  rewrite clearTimers_tidy by (destruct cl; auto).
  unfold settle.
  destruct b; [destruct r as [|p|p]; [|destruct d as [[|q|q]|]|]|]; reflexivity.
Qed.

(** [updateTimer] on a running countdown whose interval is live. *)
Lemma updateTimer_running now r d h1 h2 fr ls cl n t :
  updateTimer (mkClosure true r) now
    (mkWorld true r d (Some h1) (Some h2) fr [(h2, mkClosure true r)] ls cl n t)
  = let x := ceil_div (Z.max 0 (to_number d - now)) 1000 in
    if x <=? 0
    then mkWorld false x None None None (drop h1 fr) [] ls cl n t
    else mkWorld true x d (Some h1) (Some h2) fr [(h2, mkClosure true r)] ls cl n t.
Proof.
  unfold updateTimer. fields.
  set (x := ceil_div (Z.max 0 (to_number d - now)) 1000).
  destruct (Z.eqb_spec x r) as [E|E], (x <=? 0); cbv [negb]; fields;
    rewrite ?drop_single; rewrite ?E; reflexivity.
Qed.

Lemma settle_wf now b r d n : wf (settle now b r d n).
Proof.
  unfold settle. destruct (b && (0 <? r)) eqn:E.
  - apply andb_prop in E as [-> E]. constructor. lia.
  - now constructor.
Qed.

Lemma view_settle now b r d n :
  view (settle now b r d n)
  = (b, r, if b && (0 <? r) then (if truthy d then d else Some (now + r * 1000)) else d).
Proof. unfold settle. destruct (b && (0 <? r)); reflexivity. Qed.


(** A handler that stopped a running countdown is followed by a commit. *)
Lemma rerender_stop now w0 x ra ia fr iv ls cl n t :
  isActive w0 = true ->
  (fr = [] \/ exists h c, ra = Some h /\ fr = [(h, c)]) ->
  (iv = [] \/ exists h c, ia = Some h /\ iv = [(h, c)]) ->
  (cl = None /\ ls = [] \/ exists l c, cl = Some l /\ ls = [(l, c)]) ->
  rerender now w0 (mkWorld false x None ra ia fr iv ls cl n t)
  = settle now false x None n.
Proof.
  intros Ha Hf Hi Hl. unfold rerender. rewrite Ha. fields. bools.
  now apply commit_settle.
Qed.

(** A tick that leaves the countdown running: no commit when the second
    did not change, a commit that re-arms the timers when it did. *)
Lemma rerender_continue now w0 r x d h1 h2 l n :
  isActive w0 = true -> timeRemaining w0 = r -> 0 < x ->
  let c := mkClosure true r in
  let u := mkWorld true x d (Some h1) (Some h2) [(h1, c)] [(h2, c)] [(l, c)]
                   (Some l) n (titleText true r) in
  wf (rerender now w0 u) /\
  view (rerender now w0 u)
  = (true, x, if (x =? r) || truthy d then d else Some (now + x * 1000)).
Proof.
  intros Ha Ht Hx c u. subst c u. unfold rerender. rewrite Ha, Ht. fields. bools.
  rewrite (Z.eqb_sym x r).
  destruct (Z.eqb_spec r x) as [E|E]; bools.
  - subst x. split; [now constructor | reflexivity].
  - rewrite commit_settle by eauto 6. split; [apply settle_wf|].
    rewrite view_settle. bools.
    assert (Hx' : (0 <? x) = true) by lia. rewrite Hx'.
    destruct (truthy d); reflexivity.
Qed.

(** Every delivered event keeps the state well-formed and acts on its
    view as [step_view] says. *)
Lemma step_sim now ev w w' :
  wf w -> step now ev w = Some w' ->
  wf w' /\ view w' = step_view now ev (view w).
Proof.
  intros Hwf.
  destruct Hwf as [r d h1 h2 l n Hr | b r d n Hb].
  - (* timers armed *)
    assert (Hr' : (0 <? r) = true) by lia.
    pose proof (ceil_div_bounds (Z.max 0 (to_number d - now))) as Hx.
    change (view _) with (true, r, d) at 2.
    destruct ev; unfold step; cbv beta iota zeta delta [step_view tick_view];
      fields; bools; rewrite ?Hr'; try discriminate.
    + (* Pause *)
      unfold pauseTimer, rerender; fields; bools.
      rewrite commit_settle by eauto. intros [= <-].
      split; [apply settle_wf | now rewrite view_settle].
    + (* Reset *)
      unfold resetTimer, rerender; fields; bools.
      rewrite commit_settle by eauto. intros [= <-].
      split; [apply settle_wf | now rewrite view_settle].
    + (* Frame *)
      destruct (lookup h _) eqn:Hl; [|discriminate].
      apply lookup_single in Hl as [-> ->]. intros [= <-].
      rewrite ?drop_single, ?Pos.eqb_refl; bools. unfold rafLoop. rewrite updateTimer_running.
      fields; bools. rewrite Hr'.
      destruct (_ <=? 0) eqn:Hle; fields; rewrite ?drop_nil; cbn [app].
      * rewrite rerender_stop by eauto 6.
        split; [apply settle_wf | now rewrite view_settle].
      * apply rerender_continue; [reflexivity | reflexivity | lia].
    + (* Interval *)
      destruct (lookup h _) eqn:Hl; [|discriminate].
      apply lookup_single in Hl as [-> ->]. intros [= <-].
      rewrite updateTimer_running. fields.
      destruct (_ <=? 0) eqn:Hle.
      * rewrite ?drop_single, ?Pos.eqb_refl; bools. rewrite rerender_stop by eauto 6.
        split; [apply settle_wf | now rewrite view_settle].
      * apply rerender_continue; [reflexivity | reflexivity | lia].
    + (* Visible *)
      intros [= <-]. unfold dispatchVisible. fields.
      rewrite updateTimer_running. fields.
      destruct (_ <=? 0) eqn:Hle.
      * rewrite ?drop_single, ?Pos.eqb_refl; bools. rewrite rerender_stop by eauto 6.
        split; [apply settle_wf | now rewrite view_settle].
      * apply rerender_continue; [reflexivity | reflexivity | lia].
  - (* nothing pending *)
    change (view _) with (b, r, d) at 2.
    destruct ev; unfold step; cbv beta iota zeta delta [step_view];
      fields; rewrite ?Hb; try discriminate.
    + (* Start *)
      destruct b; [discriminate|]. intros [= <-].
      unfold startTimer, rerender; fields; bools.
      rewrite commit_settle by auto.
      split; [apply settle_wf|]. rewrite view_settle. bools.
      destruct (0 <? r); [|reflexivity].
      destruct (truthy _); reflexivity.
    + (* Pause *)
      destruct b; [|discriminate]. intros [= <-].
      unfold pauseTimer, rerender; fields; bools.
      rewrite commit_settle by auto.
      split; [apply settle_wf | now rewrite view_settle].
    + (* Reset *)
      intros [= <-]. unfold resetTimer, rerender; fields.
      destruct b; bools.
      * rewrite commit_settle by auto.
        split; [apply settle_wf | now rewrite view_settle].
      * destruct (Z.eqb_spec r (25 * 60)) as [E|E].
        -- split; [|reflexivity]. rewrite E. now constructor.
        -- rewrite commit_settle by auto.
           split; [apply settle_wf | now rewrite view_settle].
    + (* Visible *)
      intros [= <-]. unfold dispatchVisible, rerender; fields.
      rewrite eqb_reflx, Z.eqb_refl. bools.
      split; [now constructor | reflexivity].
Qed.


Lemma mount_wf t0 : wf (mount t0).
Proof. exact (wf_idle false (25 * 60) None 1%positive eq_refl). Qed.

Lemma run_wf tr : forall w w', wf w -> run tr w = Some w' -> wf w'.
Proof.
  induction tr as [|[now ev] tr IH]; intros w w' Hwf Hrun; simpl in Hrun.
  - now injection Hrun as <-.
  - destruct (step now ev w) as [w1|] eqn:Hs; [|discriminate].
    apply (IH w1); [|assumption]. now apply (step_sim now ev w).
Qed.

Lemma reachable_wf w : reachable w -> wf w.
Proof. intros (t0 & tr & Hrun). exact (run_wf tr _ _ (mount_wf t0) Hrun). Qed.

Lemma run_app tr1 : forall tr2 w,
  run (tr1 ++ tr2) w
  = match run tr1 w with Some w1 => run tr2 w1 | None => None end.
Proof.
  induction tr1 as [|[now ev] tr1 IH]; intros tr2 w; simpl; [reflexivity|].
  destruct (step now ev w); [apply IH | reflexivity].
Qed.

Lemma reachable_step now ev w w' :
  reachable w -> step now ev w = Some w' -> reachable w'.
Proof.
  intros (t0 & tr & Hrun) Hs. exists t0, (tr ++ [(now, ev)]).
  rewrite run_app, Hrun. simpl. now rewrite Hs.
Qed.

Lemma view_fields w b r d :
  view w = (b, r, d) -> isActive w = b /\ timeRemaining w = r /\ timerEndRef w = d.
Proof. unfold view. intros [= -> -> ->]. auto. Qed.

Lemma view_eta w : view w = (isActive w, timeRemaining w, timerEndRef w).
Proof. reflexivity. Qed.

(** *** The remaining seconds never go negative *)

Lemma step_nonneg now ev w w' :
  wf w -> 0 <= timeRemaining w -> step now ev w = Some w' -> 0 <= timeRemaining w'.
Proof.
  intros Hwf H0 Hs. destruct (step_sim _ _ _ _ Hwf Hs) as [_ Hv].
  rewrite (view_eta w) in Hv.
  pose proof (ceil_div_bounds (Z.max 0 (to_number (timerEndRef w) - now))) as Hx.
  destruct ev; cbv beta iota zeta delta [step_view tick_view] in Hv;
    repeat match type of Hv with
      | context [if ?c then _ else _] => destruct c
      end;
    apply view_fields in Hv as (_ & -> & _); lia.
Qed.

Lemma run_nonneg tr : forall w w',
  wf w -> 0 <= timeRemaining w -> run tr w = Some w' -> 0 <= timeRemaining w'.
Proof.
  induction tr as [|[now ev] tr IH]; intros w w' Hwf H0 Hrun; simpl in Hrun.
  - now injection Hrun as <-.
  - destruct (step now ev w) as [w1|] eqn:Hs; [|discriminate].
    apply (IH w1); [now apply (step_sim now ev w) | | assumption].
    now apply (step_nonneg now ev w).
Qed.

Lemma reachable_nonneg w : reachable w -> 0 <= timeRemaining w.
Proof.
  intros (t0 & tr & Hrun).
  apply (run_nonneg tr (mount t0)); [apply mount_wf | | assumption].
  vm_compute. discriminate.
Qed.

(** *** Bounds under a clock that never runs backward *)

Lemma step_bounded t now ev w w' :
  wf w -> bounded t w -> t <= now -> step now ev w = Some w' -> bounded now w'.
Proof.
  intros Hwf [Hr Hd] Ht Hs. destruct (step_sim _ _ _ _ Hwf Hs) as [_ Hv].
  rewrite (view_eta w) in Hv. unfold bounded, totalTime in *.
  pose proof (ceil_div_bounds (Z.max 0 (to_number (timerEndRef w) - now))) as Hx.
  set (dn := to_number (timerEndRef w)) in *.
  destruct ev; cbv beta iota zeta delta [step_view tick_view] in Hv; fold dn in Hv;
    set (x := ceil_div (Z.max 0 (dn - now)) 1000) in *;
    repeat match type of Hv with
      | context [if ?c then _ else _] => destruct c eqn:?
      end;
    apply view_fields in Hv as (-> & -> & ->);
    cbn [to_number andb];
    try specialize (Hd eq_refl);
    (split; [lia | intros; try congruence; try assumption; lia]).
Qed.

Lemma run_bounded tr : forall t w w',
  wf w -> bounded t w -> monotone t tr -> run tr w = Some w' ->
  exists t', bounded t' w'.
Proof.
  induction tr as [|[now ev] tr IH]; intros t w w' Hwf Hb Hm Hrun; simpl in *.
  - injection Hrun as <-. now exists t.
  - destruct (step now ev w) as [w1|] eqn:Hs; [|discriminate].
    destruct Hm as [Ht Hm].
    apply (IH now w1); [now apply (step_sim now ev w) | | assumption | assumption].
    now apply (step_bounded t now ev w).
Qed.


Lemma mount_bounded t0 t : bounded t (mount t0).
Proof.
  unfold bounded. change (timeRemaining (mount t0)) with 1500.
  change (isActive (mount t0)) with false. cbn [andb].
  unfold totalTime. split; [lia | discriminate].
Qed.

(** *** A run segment under ticks *)

Lemma segment_tick D t now ev w w' :
  0 < D -> wf w -> segment D t w -> t <= now -> is_tick ev = true ->
  step now ev w = Some w' ->
  segment D now w' /\
  timeRemaining w' = ceil_div (Z.max 0 (D - now)) 1000.
Proof.
  intros HD Hwf Hseg Ht Hev Hs.
  destruct (step_sim _ _ _ _ Hwf Hs) as [_ Hv].
  pose proof (ceil_div_bounds (Z.max 0 (D - now))) as Hx.
  assert (HDt : truthy (Some D) = true).
  { unfold truthy. destruct (Z.eqb_spec D 0); [lia | reflexivity]. }
  destruct Hseg as [w E Hr | w E HDle]; rewrite E in Hv.
  - assert (Hr' : (0 <? timeRemaining w) = true) by lia.
    assert (Hv' : view w' = tick_view now (timeRemaining w) (Some D)).
    { destruct ev; try discriminate; cbn [step_view andb] in Hv;
        now rewrite Hr' in Hv. }
    clear Hv. unfold tick_view in Hv'. cbn [to_number] in Hv'.
    set (x := ceil_div (Z.max 0 (D - now)) 1000) in *.
    rewrite HDt, orb_true_r in Hv'.
    destruct (x <=? 0) eqn:Hle;
      apply view_fields in Hv' as (Ha & Hr'' & Hd); (split; [|assumption]).
    + apply seg_done; [unfold view; f_equal; [f_equal|]; try assumption; lia | lia].
    + apply seg_running; [unfold view; congruence | lia].
  - assert (Hv' : view w' = (false, 0, None)).
    { destruct ev; try discriminate; cbn [step_view andb] in Hv; assumption. }
    apply view_fields in Hv' as (Ha & Hr' & Hd).
    split.
    + apply seg_done; [unfold view; congruence | lia].
    + rewrite Hr'. replace (Z.max 0 (D - now)) with 0 by lia. reflexivity.
Qed.

Lemma segment_run D tr : forall t w w',
  0 < D -> wf w -> segment D t w -> monotone t tr -> all_ticks tr = true ->
  run tr w = Some w' ->
  wf w' /\ segment D (last_time t tr) w'.
Proof.
  induction tr as [|[now ev] tr IH]; intros t w w' HD Hwf Hseg Hm Hall Hrun;
    simpl in *.
  - injection Hrun as <-. auto.
  - destruct (step now ev w) as [w1|] eqn:Hs; [|discriminate].
    destruct Hm as [Ht Hm]. apply andb_prop in Hall as [Hev Hall].
    apply (IH now w1); try assumption.
    + now apply (step_sim now ev w).
    + now apply (segment_tick D t now ev w).
Qed.

Lemma monotone_app t tr1 : forall tr2,
  monotone t (tr1 ++ tr2) -> monotone t tr1 /\ monotone (last_time t tr1) tr2.
Proof.
  revert t. induction tr1 as [|[now ev] tr1 IH]; intros t tr2 Hm; simpl in *.
  - auto.
  - destruct Hm as [Ht Hm]. destruct (IH now tr2 Hm). auto.
Qed.

(** Starting from a stopped, well-formed state with time remaining. *)
Lemma start_view now w w' :
  wf w -> step now ClickStart w = Some w' ->
  isActive w = false /\
  view w' = (true, timeRemaining w, Some (now + timeRemaining w * 1000)).
Proof.
  intros Hwf Hs. destruct (step_sim _ _ _ _ Hwf Hs) as [_ Hv].
  split; [|exact Hv].
  unfold step in Hs. destruct (isActive w); [discriminate | reflexivity].
Qed.


Lemma wf_stopped_lists w :
  wf w -> isActive w && (0 <? timeRemaining w) = false ->
  rafIdRef w = None /\ intervalIdRef w = None /\
  frames w = [] /\ intervals w = [] /\ listeners w = [].
Proof.
  intros [r d h1 h2 l n Hr | b r d n Hb] H; cbn in *; [lia | auto].
Qed.

Lemma wf_running_lists w :
  wf w -> isActive w && (0 <? timeRemaining w) = true ->
  exists h1 h2 l,
    let c := mkClosure true (timeRemaining w) in
    rafIdRef w = Some h1 /\ frames w = [(h1, c)] /\
    intervalIdRef w = Some h2 /\ intervals w = [(h2, c)] /\
    listeners w = [(l, c)].
Proof.
  intros [r d h1 h2 l n Hr | b r d n Hb] H; cbn [isActive timeRemaining] in *.
  - exists h1, h2, l. cbn. auto.
  - congruence.
Qed.

Lemma halted_step now ev w w' :
  wf w -> timeRemaining w = 0 -> is_reset ev = false ->
  step now ev w = Some w' -> timeRemaining w' = 0.
Proof.
  intros Hwf H0 Hev Hs. destruct (step_sim _ _ _ _ Hwf Hs) as [_ Hv].
  rewrite (view_eta w), H0 in Hv.
  destruct ev; try discriminate; cbn [step_view andb] in Hv;
    rewrite ?andb_false_r in Hv; now apply view_fields in Hv.
Qed.

Lemma halted_run tr : forall w w',
  wf w -> timeRemaining w = 0 -> no_reset tr = true ->
  run tr w = Some w' -> wf w' /\ timeRemaining w' = 0.
Proof.
  induction tr as [|[now ev] tr IH]; intros w w' Hwf H0 Hnr Hrun; simpl in *.
  - injection Hrun as <-. auto.
  - destruct (step now ev w) as [w1|] eqn:Hs; [|discriminate].
    apply andb_prop in Hnr as [Hev Hnr]. apply negb_true_iff in Hev.
    apply (IH w1); try assumption.
    + now apply (step_sim now ev w).
    + now apply (halted_step now ev w).
Qed.

(** *** Number formatting *)

Lemma digits_length f : forall n acc,
  (String.length acc + match f with O => 0 | S _ => 1 end
   <= String.length (digits f n acc))%nat.
Proof.
  induction f as [|f IH]; intros n acc.
  - simpl. lia.
  - cbn [digits]. destruct (n <? 10).
    + cbn [String.length]. lia.
    + specialize (IH (n / 10) (String (digit (n mod 10)) acc)).
      cbn [String.length] in IH. destruct f; lia.
Qed.

Lemma padStart_two_digits n :
  0 <= n -> padStart 2 "0"%char (toString n) = Spec.two_digits n.
Proof.
  intros Hn. unfold Spec.two_digits, padStart, toString.
  assert (Hneg : (n <? 0) = false) by lia. rewrite Hneg.
  unfold digits_fuel. cbn [digits].
  destruct (n <? 10) eqn:Hlt.
  - reflexivity.
  - assert (H3 : 3 <= Z.log2 n).
    { change 3 with (Z.log2 8). apply Z.log2_le_mono. lia. }
    destruct (Z.to_nat (Z.log2 n)) as [|f] eqn:Hf; [lia|].
    pose proof (digits_length (S f) (n / 10) (String (digit (n mod 10)) EmptyString)) as Hl.
    cbn [String.length] in Hl.
    destruct (Nat.ltb_spec
      (String.length (digits (S f) (n / 10) (String (digit (n mod 10)) EmptyString))) 2);
      [lia | reflexivity].
Qed.

Lemma formatTime_mmss r : 0 <= r -> formatTime r = Spec.mmss r.
Proof.
  intros Hr. unfold formatTime, Spec.mmss.
  rewrite Z.rem_mod_nonneg by lia.
  rewrite !padStart_two_digits; [reflexivity | |].
  - apply Z.mod_pos_bound. lia.
  - apply Z.div_pos; lia.
Qed.

Lemma titleText_spec b r : 0 <= r -> titleText b r = Spec.title b r.
Proof.
  intros Hr. unfold titleText, Spec.title, totalTime.
  now rewrite formatTime_mmss.
Qed.

Lemma wf_title w : wf w -> title w = titleText (isActive w) (timeRemaining w).
Proof. intros [r d h1 h2 l n Hr | b r d n Hb]; reflexivity. Qed.


(* ------------------------------------------------------------------ *)
(** *** Claims about the countdown engine *)
(* ------------------------------------------------------------------ *)

(** C1.  A run segment is started at time [t0] with [timeRemaining w0]
    seconds left.  Whatever ticks were delivered in between (frames,
    intervals, visibility changes, in any number and order), after a tick
    at a time [t] in the [N]-th second of the segment the engine shows
    [max 0 (timeRemaining w0 - N)]: the value is derived from the deadline
    and never from the number of ticks. *)
Theorem tick_recomputes_from_deadline
    (w0 w1 w3 : world) (t0 t N : Z) (ticks : list (Z * event)) (ev : event) :
  reachable w0 -> 0 < timeRemaining w0 -> 0 <= t0 ->
  step t0 ClickStart w0 = Some w1 ->
  all_ticks ticks = true -> is_tick ev = true ->
  monotone t0 (ticks ++ [(t, ev)]) ->
  run (ticks ++ [(t, ev)]) w1 = Some w3 ->
  t0 + 1000 * N <= t < t0 + 1000 * (N + 1) ->
  timeRemaining w3 = Z.max 0 (timeRemaining w0 - N).
Proof.
  intros Hreach Hr Ht0 Hstart Hall Hev Hmono Hrun HN.
  pose proof (reachable_wf _ Hreach) as Hwf0.
  destruct (step_sim _ _ _ _ Hwf0 Hstart) as [Hwf1 _].
  destruct (start_view _ _ _ Hwf0 Hstart) as [_ Hv1].
  set (r0 := timeRemaining w0) in *. set (D := t0 + r0 * 1000) in *.
  assert (Hseg1 : segment D t0 w1).
  { apply view_fields in Hv1 as (Ha & Hr1 & Hd).
    apply seg_running; [unfold view; congruence | lia]. }
  rewrite run_app in Hrun.
  destruct (run ticks w1) as [w2|] eqn:Hrun2; [|discriminate].
  apply monotone_app in Hmono as [Hm1 Hm2].
  destruct (segment_run D ticks t0 w1 w2 ltac:(lia) Hwf1 Hseg1 Hm1 Hall Hrun2)
    as [Hwf2 Hseg2].
  simpl in Hrun, Hm2. destruct (step t ev w2) as [w3'|] eqn:Hs; [|discriminate].
  injection Hrun as ->. destruct Hm2 as [Hle _].
  destruct (segment_tick D _ t ev w2 w3 ltac:(lia) Hwf2 Hseg2 Hle Hev Hs) as [_ ->].
  pose proof (ceil_div_bounds (Z.max 0 (D - t))). subst D. lia.
Qed.

Lemma tick_recomputes_from_deadline_witness :
  exists w1 w3,
    step 1000 ClickStart (mount 0) = Some w1 /\
    run ([(1016, Frame 1%positive); (1500, Visible); (2000, Interval 2%positive);
          (2016, Frame 5%positive); (4500, Visible)] ++ [(11500, Interval 10%positive)]) w1
    = Some w3 /\
    timeRemaining w3 = 1490.
Proof.
  eexists. eexists.
  split; [vm_compute; reflexivity|].
  split; [vm_compute; reflexivity|].
  refine (tick_recomputes_from_deadline (mount 0) _ _ 1000 11500 10
            [(1016, Frame 1%positive); (1500, Visible); (2000, Interval 2%positive);
             (2016, Frame 5%positive); (4500, Visible)]
            (Interval 10%positive) _ _ _ _ _ _ _ _ _).
  - exists 0, []. reflexivity.
  - vm_compute. reflexivity.
  - lia.
  - vm_compute. reflexivity.
  - reflexivity.
  - reflexivity.
  - simpl. lia.
  - vm_compute. reflexivity.
  - lia.
Defined.

(** C2: where the code parts from the claim.  When the countdown has
    reached zero the page offers the Start button, and pressing it is not
    a no-op: [startTimer] sets a deadline and [isActive] becomes true,
    although the effect, which arms its timers only with time remaining,
    arms none. *)
Theorem start_at_zero_is_not_a_noop :
  exists w w',
    run [(1000, ClickStart); (1501000, Interval 2%positive)] (mount 0) = Some w /\
    isActive w = false /\ timeRemaining w = 0 /\ timerEndRef w = None /\
    step 1502000 ClickStart w = Some w' /\
    isActive w' = true /\ timeRemaining w' = 0 /\ timerEndRef w' = Some 1502000 /\
    frames w' = [] /\ intervals w' = [].
Proof.
  eexists. eexists. split; [vm_compute; reflexivity|].
  repeat split.
Qed.

(** X14.  From a reachable stopped state with time remaining, Start is
    delivered, sets the deadline to [now + timeRemaining * 1000]
    milliseconds and [isActive] to true, keeps [timeRemaining], and leaves
    one pending frame and one live interval. *)
Theorem start_arms_countdown (now : Z) (w : world) :
  reachable w -> isActive w = false -> 0 < timeRemaining w ->
  exists w',
    step now ClickStart w = Some w' /\
    isActive w' = true /\
    timerEndRef w' = Some (now + timeRemaining w * 1000) /\
    timeRemaining w' = timeRemaining w /\
    exists h1 h2 c, frames w' = [(h1, c)] /\ intervals w' = [(h2, c)].
Proof.
  intros Hreach Ha Hr. pose proof (reachable_wf _ Hreach) as Hwf.
  destruct (step now ClickStart w) as [w'|] eqn:Hs.
  - exists w'. split; [reflexivity|].
    destruct (step_sim _ _ _ _ Hwf Hs) as [Hwf' _].
    destruct (start_view _ _ _ Hwf Hs) as [_ Hv].
    apply view_fields in Hv as (Ha' & Hr' & Hd').
    repeat split; try assumption.
    destruct (wf_running_lists w') as (h1 & h2 & l & H); [assumption | |].
    + rewrite Ha', Hr'. cbn [andb]. lia.
    + cbv zeta in H. destruct H as (_ & Hf & _ & Hi & _).
      exists h1, h2, (mkClosure true (timeRemaining w')). split; assumption.
  - unfold step in Hs. rewrite Ha in Hs. discriminate.
Qed.

Lemma start_arms_countdown_witness :
  exists w',
    step 1000 ClickStart (mount 0) = Some w' /\
    isActive w' = true /\
    timerEndRef w' = Some 1501000 /\
    timeRemaining w' = 1500 /\
    exists h1 h2 c, frames w' = [(h1, c)] /\ intervals w' = [(h2, c)].
Proof.
  refine (start_arms_countdown 1000 (mount 0) _ _ _).
  - exists 0, []. reflexivity.
  - reflexivity.
  - vm_compute. reflexivity.
Defined.

(** C3: what the code does at a pause.  [pauseTimer] leaves
    [timerEndRef.current] as it is, so a paused state still carries the
    deadline of the segment that ended: [isActive = false] does not imply a
    cleared deadline. *)
Theorem pause_keeps_deadline :
  (forall w, timerEndRef (pauseTimer w) = timerEndRef w) /\
  exists w,
    run [(1000, ClickStart); (11000, Interval 2%positive); (11200, ClickPause)] (mount 0)
    = Some w /\
    isActive w = false /\ timeRemaining w = 1490 /\ timerEndRef w = Some 1501000.
Proof.
  split; [reflexivity|].
  eexists. split; [vm_compute; reflexivity|]. repeat split.
Qed.

(** C6.  From the full 1500 seconds, after Start at [t0] and any ticks, a
    tick at or after [t0 + 1500 s] leaves the countdown stopped at zero with
    the deadline cleared, no frame, interval or listener alive, so that no
    frame or interval can be delivered any more; and whatever follows
    short of a Reset, the remaining time stays zero with nothing pending. *)
Theorem zero_is_terminal
    (w0 w1 w3 : world) (t0 t : Z) (ticks : list (Z * event)) (ev : event) :
  reachable w0 -> timeRemaining w0 = totalTime -> 0 <= t0 ->
  step t0 ClickStart w0 = Some w1 ->
  all_ticks ticks = true -> is_tick ev = true ->
  monotone t0 (ticks ++ [(t, ev)]) ->
  run (ticks ++ [(t, ev)]) w1 = Some w3 ->
  t0 + 1500 * 1000 <= t ->
  (isActive w3 = false /\ timeRemaining w3 = 0 /\ timerEndRef w3 = None) /\
  (rafIdRef w3 = None /\ intervalIdRef w3 = None /\
   frames w3 = [] /\ intervals w3 = [] /\ listeners w3 = []) /\
  (forall t' h, step t' (Frame h) w3 = None /\ step t' (Interval h) w3 = None) /\
  (forall tr w4, no_reset tr = true -> run tr w3 = Some w4 -> halted w4).
Proof.
  intros Hreach Hr Ht0 Hstart Hall Hev Hmono Hrun Ht.
  pose proof (reachable_wf _ Hreach) as Hwf0.
  destruct (step_sim _ _ _ _ Hwf0 Hstart) as [Hwf1 _].
  destruct (start_view _ _ _ Hwf0 Hstart) as [_ Hv1].
  rewrite Hr in Hv1. unfold totalTime in *.
  set (D := t0 + 25 * 60 * 1000) in *.
  assert (Hseg1 : segment D t0 w1).
  { apply view_fields in Hv1 as (Ha & Hr1 & Hd).
    apply seg_running; [unfold view; congruence | lia]. }
  rewrite run_app in Hrun.
  destruct (run ticks w1) as [w2|] eqn:Hrun2; [|discriminate].
  apply monotone_app in Hmono as [Hm1 Hm2].
  destruct (segment_run D ticks t0 w1 w2 ltac:(lia) Hwf1 Hseg1 Hm1 Hall Hrun2)
    as [Hwf2 Hseg2].
  simpl in Hrun, Hm2. destruct (step t ev w2) as [w3'|] eqn:Hs; [|discriminate].
  injection Hrun as ->. destruct Hm2 as [Hle _].
  destruct (step_sim _ _ _ _ Hwf2 Hs) as [Hwf3 _].
  destruct (segment_tick D _ t ev w2 w3 ltac:(lia) Hwf2 Hseg2 Hle Hev Hs) as [Hseg3 H0].
  assert (Hv3 : view w3 = (false, 0, None)).
  { destruct Hseg3 as [w3 E Hpos | w3 E _]; [|assumption].
    replace (Z.max 0 (D - t)) with 0 in H0 by lia.
    change (ceil_div 0 1000) with 0 in H0. lia. }
  apply view_fields in Hv3 as (Ha & Hr3 & Hd).
  assert (Hlists := wf_stopped_lists w3 Hwf3 ltac:(now rewrite Ha)).
  destruct Hlists as (Hraf & Hint & Hfr & Hiv & Hls).
  split; [auto|]. split; [auto|]. split.
  - intros t' h. unfold step. rewrite Hfr, Hiv. auto.
  - intros tr w4 Hnr Hrun4.
    destruct (halted_run tr w3 w4 Hwf3 Hr3 Hnr Hrun4) as [Hwf4 Hr4].
    destruct (wf_stopped_lists w4 Hwf4) as (_ & _ & Hf4 & Hi4 & Hl4).
    + rewrite Hr4. apply andb_false_r.
    + unfold halted. auto.
Qed.

Lemma zero_is_terminal_witness :
  exists w1 w3,
    step 1000 ClickStart (mount 0) = Some w1 /\
    run ([(1016, Frame 1%positive); (1500500, Visible)] ++ [(1501000, Interval 6%positive)]) w1
    = Some w3 /\
    (isActive w3 = false /\ timeRemaining w3 = 0 /\ timerEndRef w3 = None) /\
    (rafIdRef w3 = None /\ intervalIdRef w3 = None /\
     frames w3 = [] /\ intervals w3 = [] /\ listeners w3 = []) /\
    (forall t' h, step t' (Frame h) w3 = None /\ step t' (Interval h) w3 = None) /\
    (forall tr w4, no_reset tr = true -> run tr w3 = Some w4 -> halted w4).
Proof.
  eexists. eexists.
  split; [vm_compute; reflexivity|].
  split; [vm_compute; reflexivity|].
  refine (zero_is_terminal (mount 0) _ _ 1000 1501000
            [(1016, Frame 1%positive); (1500500, Visible)]
            (Interval 6%positive) _ _ _ _ _ _ _ _ _).
  - exists 0, []. reflexivity.
  - reflexivity.
  - lia.
  - vm_compute. reflexivity.
  - reflexivity.
  - reflexivity.
  - simpl. lia.
  - vm_compute. reflexivity.
  - lia.
Defined.

(** C7.  In every reachable state the title is the one the specification
    gives for that state: the fixed label when stopped at the full time,
    "mm:ss - Paused" when stopped otherwise, "mm:ss - Pomodoro" when running,
    with minutes and seconds zero-padded to two digits. *)
Theorem title_follows_state (w : world) :
  reachable w -> title w = Spec.title (isActive w) (timeRemaining w).
Proof.
  intros Hreach. rewrite (wf_title w (reachable_wf _ Hreach)).
  apply titleText_spec. now apply reachable_nonneg.
Qed.

Lemma title_follows_state_witness :
  exists w,
    run [(1000, ClickStart); (11000, Interval 2%positive); (11200, ClickPause)] (mount 0)
    = Some w /\
    timeRemaining w = 1490 /\ title w = "24:50 - Paused"%string.
Proof.
  eexists. split; [vm_compute; reflexivity|]. split; [reflexivity|].
  refine (eq_trans (title_follows_state _ _) _).
  - exists 0, [(1000, ClickStart); (11000, Interval 2%positive); (11200, ClickPause)].
    vm_compute. reflexivity.
  - vm_compute. reflexivity.
Defined.

(** C8.  Pause, then Start: the first tick after the resume, delivered
    within a second of it, shows the seconds that stood before the pause. *)
Theorem pause_resume_keeps_time
    (w w1 w2 w3 : world) (t1 t2 t3 : Z) (ev : event) :
  reachable w ->
  step t1 ClickPause w = Some w1 ->
  step t2 ClickStart w1 = Some w2 ->
  0 <= t2 -> t2 <= t3 < t2 + 1000 ->
  is_tick ev = true -> step t3 ev w2 = Some w3 ->
  timeRemaining w1 = timeRemaining w /\
  timeRemaining w2 = timeRemaining w /\
  timeRemaining w3 = timeRemaining w.
Proof.
  intros Hreach Hp Hs Ht2 Ht3 Hev Ht.
  pose proof (reachable_wf _ Hreach) as Hwf.
  pose proof (reachable_nonneg _ Hreach) as Hr.
  destruct (step_sim _ _ _ _ Hwf Hp) as [Hwf1 Hv1].
  destruct (step_sim _ _ _ _ Hwf1 Hs) as [Hwf2 _].
  destruct (start_view _ _ _ Hwf1 Hs) as [_ Hv2].
  destruct (step_sim _ _ _ _ Hwf2 Ht) as [_ Hv3].
  rewrite (view_eta w) in Hv1. cbn [step_view] in Hv1.
  apply view_fields in Hv1 as (Ha1 & Hr1 & Hd1).
  rewrite Hr1 in Hv2. rewrite Hv2 in Hv3.
  apply view_fields in Hv2 as (Ha2 & Hr2 & Hd2).
  set (r := timeRemaining w) in *.
  repeat split; try assumption.
  assert (Hv3' : view w3 = if 0 <? r then tick_view t3 r (Some (t2 + r * 1000))
                             else (true, r, Some (t2 + r * 1000))).
  { destruct ev; try discriminate; cbn [step_view andb] in Hv3; assumption. }
  clear Hv3. destruct (0 <? r) eqn:Hpos.
  - unfold tick_view in Hv3'. cbn [to_number] in Hv3'.
    pose proof (ceil_div_bounds (Z.max 0 (t2 + r * 1000 - t3))) as Hx.
    set (x := ceil_div (Z.max 0 (t2 + r * 1000 - t3)) 1000) in *.
    assert (x = r) by lia.
    destruct (x <=? 0) eqn:Hle; [lia|].
    apply view_fields in Hv3' as (_ & -> & _). assumption.
  - now apply view_fields in Hv3' as (_ & -> & _).
Qed.

Lemma pause_resume_keeps_time_witness :
  exists w w1 w2 w3,
    run [(1000, ClickStart); (11000, Interval 2%positive)] (mount 0) = Some w /\
    step 11600 ClickPause w = Some w1 /\
    step 20000 ClickStart w1 = Some w2 /\
    step 20300 (Frame 7%positive) w2 = Some w3 /\
    timeRemaining w = 1490 /\
    timeRemaining w1 = timeRemaining w /\
    timeRemaining w2 = timeRemaining w /\
    timeRemaining w3 = timeRemaining w.
Proof.
  eexists. eexists. eexists. eexists.
  split; [vm_compute; reflexivity|].
  split; [vm_compute; reflexivity|].
  split; [vm_compute; reflexivity|].
  split; [vm_compute; reflexivity|].
  split; [reflexivity|].
  refine (pause_resume_keeps_time _ _ _ _ 11600 20000 20300 (Frame 7%positive)
            _ _ _ _ _ _ _).
  - exists 0, [(1000, ClickStart); (11000, Interval 2%positive)].
    vm_compute. reflexivity.
  - vm_compute. reflexivity.
  - vm_compute. reflexivity.
  - lia.
  - lia.
  - reflexivity.
  - vm_compute. reflexivity.
Defined.

(** C10.  Along every trace whose timestamps never decrease, the
    remaining seconds stay between 0 and the total time of 1500. *)
Theorem remaining_within_total (t0 : Z) (tr : list (Z * event)) (w : world) :
  monotone t0 tr -> run tr (mount t0) = Some w ->
  0 <= timeRemaining w <= totalTime.
Proof.
  intros Hm Hrun.
  destruct (run_bounded tr t0 (mount t0) w (mount_wf t0) (mount_bounded t0 t0) Hm Hrun)
    as [t' [Hb _]].
  exact Hb.
Qed.

Lemma remaining_within_total_witness :
  exists w,
    run [(1000, ClickStart); (11000, Interval 2%positive); (11200, ClickPause);
         (11300, ClickReset); (12000, ClickStart); (1513000, Visible)] (mount 0)
    = Some w /\
    0 <= timeRemaining w <= totalTime.
Proof.
  eexists. split; [vm_compute; reflexivity|].
  refine (remaining_within_total 0
            [(1000, ClickStart); (11000, Interval 2%positive); (11200, ClickPause);
             (11300, ClickReset); (12000, ClickStart); (1513000, Visible)] _ _ _).
  - simpl. lia.
  - vm_compute. reflexivity.
Defined.

End EngineProofs.

(* ================================================================== *)
(** ** Properties of the clip-path polygon *)
(* ================================================================== *)

Section GeometryProofs.
Import Geometry.
Local Open Scope R_scope.

Lemma progress_eq (k : Z) : progress k = 1 - IZR k / 1500.
Proof. reflexivity. Qed.

Lemma progress_at_full : progress Engine.totalTime = 0.
Proof. rewrite progress_eq. unfold Engine.totalTime. simpl. lra. Qed.

Lemma progress_at_zero : progress 0 = 1.
Proof. rewrite progress_eq. lra. Qed.

Lemma tan_of_zero (x : R) : x = 0 -> tan x = 0.
Proof. intros ->. apply tan_0. Qed.

Lemma tan_of_PI4 (x : R) : x = PI / 4 -> tan x = 1.
Proof. intros ->. apply tan_PI4. Qed.

Lemma tan_of_minus_PI4 (x : R) : x = - (PI / 4) -> tan x = -1.
Proof. intros ->. rewrite tan_neg, tan_PI4. reflexivity. Qed.

Lemma point_eq (a b c d : R) : a = c -> b = d -> (a, b) = (c, d).
Proof. now intros -> ->. Qed.

Lemma clip_path_at_0 :
  getProgressClipPath 0 = [center; top; top; center; center; center; center].
Proof.
  unfold getProgressClipPath.
  destruct (Rgt_dec 0 0.125); [lra|].
  destruct (Rgt_dec 0 0.375); [lra|].
  destruct (Rgt_dec 0 0.625); [lra|].
  destruct (Rgt_dec 0 0.875); [lra|].
  repeat f_equal. unfold top_edge_out, top.
  apply point_eq; [|reflexivity].
  rewrite (tan_of_zero (0 * 2 * PI)) by lra. lra.
Qed.

Lemma clip_path_at_1 :
  getProgressClipPath 1
  = [center; top; top_right; bottom_right; bottom_left; top_left; top].
Proof.
  unfold getProgressClipPath.
  destruct (Rgt_dec 1 0.125); [|lra].
  destruct (Rgt_dec 1 0.375); [|lra].
  destruct (Rgt_dec 1 0.625); [|lra].
  destruct (Rgt_dec 1 0.875); [|lra].
  repeat f_equal. unfold top_edge_back, top.
  apply point_eq; [|reflexivity].
  rewrite (tan_of_zero ((1 - 1) * 2 * PI)) by lra. lra.
Qed.

(** C4: where the code parts from the claim.  At progress 0.375 the
    tangent rule of the right edge gives the top-right corner (100%, 0%),
    while past 0.375 that vertex is pinned to the bottom-right corner
    (100%, 100%): the polygon jumps at the threshold.  The same happens
    between two consecutive seconds of the countdown, 938 and 937 seconds
    remaining.  The left edge starts, past 0.625, from the top-left corner
    instead of the bottom-left one.  Only the bottom edge is continuous:
    its tangent rule gives the pinned corner (0%, 100%) at 0.625, and
    (50%, 100%) at progress 0.5. *)
Theorem right_edge_jumps_at_threshold :
  (vertex 3 (getProgressClipPath 0.375) = top_right /\
   forall p, p > 0.375 -> vertex 3 (getProgressClipPath p) = bottom_right) /\
  (snd (vertex 3 (getProgressClipPath (progress 938))) < 50 /\
   vertex 3 (getProgressClipPath (progress 937)) = bottom_right) /\
  left_edge 0.625 = top_left /\
  (vertex 4 (getProgressClipPath 0.625) = bottom_left /\
   forall p, p > 0.625 -> vertex 4 (getProgressClipPath p) = bottom_left) /\
  vertex 4 (getProgressClipPath 0.5) = (50, 100).
Proof.
  pose proof PI_RGT_0 as Hpi.
  repeat split.
  - unfold vertex, getProgressClipPath, nth.
    destruct (Rgt_dec 0.375 0.375); [lra|].
    destruct (Rgt_dec 0.375 0.125); [|lra].
    unfold right_edge, top_right. apply point_eq; [reflexivity|].
    rewrite (tan_of_PI4 ((0.375 - 0.25) * 2 * PI)) by lra. lra.
  - intros p Hp. unfold vertex, getProgressClipPath, nth.
    destruct (Rgt_dec p 0.375); [reflexivity | lra].
  - rewrite progress_eq. unfold vertex, getProgressClipPath, nth.
    destruct (Rgt_dec (1 - 938 / 1500) 0.375); [lra|].
    destruct (Rgt_dec (1 - 938 / 1500) 0.125); [|lra].
    unfold right_edge, snd.
    assert (0 < tan ((1 - 938 / 1500 - 0.25) * 2 * PI)); [|lra].
    apply tan_gt_0; lra.
  - rewrite progress_eq. unfold vertex, getProgressClipPath, nth.
    destruct (Rgt_dec (1 - 937 / 1500) 0.375); [reflexivity | lra].
  - unfold left_edge, top_left. apply point_eq; [reflexivity|].
    rewrite (tan_of_minus_PI4 ((0.625 - 0.75) * 2 * PI)) by lra. lra.
  - unfold vertex, getProgressClipPath, nth.
    destruct (Rgt_dec 0.625 0.625); [lra|].
    destruct (Rgt_dec 0.625 0.375); [|lra].
    unfold bottom_edge, bottom_left. apply point_eq; [|reflexivity].
    rewrite (tan_of_PI4 ((0.625 - 0.5) * 2 * PI)) by lra. lra.
  - intros p Hp. unfold vertex, getProgressClipPath, nth.
    destruct (Rgt_dec p 0.625); [reflexivity | lra].
  - unfold vertex, getProgressClipPath, nth.
    destruct (Rgt_dec 0.5 0.625); [lra|].
    destruct (Rgt_dec 0.5 0.375); [|lra].
    unfold bottom_edge. apply point_eq; [|reflexivity].
    rewrite (tan_of_zero ((0.5 - 0.5) * 2 * PI)) by lra. lra.
Qed.

(** C5.  With the full time remaining (progress 0) every vertex of the
    polygon is the 12-o'clock point or the center, and its area is zero.
    With nothing remaining (progress 1) the polygon runs from the center
    to the top, through the four corners clockwise and back to the top:
    its area is that of the whole box. *)
Theorem clip_path_endpoints :
  (getProgressClipPath (progress Engine.totalTime)
   = [center; top; top; center; center; center; center] /\
   (forall v, In v (getProgressClipPath (progress Engine.totalTime)) ->
              v = top \/ v = center) /\
   area (getProgressClipPath (progress Engine.totalTime)) = 0) /\
  (getProgressClipPath (progress 0)
   = [center; top; top_right; bottom_right; bottom_left; top_left; top] /\
   area (getProgressClipPath (progress 0)) = 100 * 100).
Proof.
  rewrite progress_at_full, progress_at_zero, clip_path_at_0, clip_path_at_1.
  repeat split.
  - intros v Hv. simpl in Hv. intuition auto.
  - unfold area, shoelace, cross, center, top, fst, snd.
    replace (50 * 0 - 50 * 50 + (50 * 0 - 50 * 0 + (50 * 50 - 50 * 0 +
             (50 * 50 - 50 * 50 + (50 * 50 - 50 * 50 + (50 * 50 - 50 * 50 +
             (50 * 50 - 50 * 50))))))) with 0 by lra.
    rewrite Rabs_R0. lra.
  - unfold area, shoelace, cross, center, top, top_right, bottom_right,
      bottom_left, top_left, fst, snd.
    rewrite Rabs_pos_eq; lra.
Qed.

End GeometryProofs.

(* ================================================================== *)
(** ** Properties of the favicon installer *)
(* ================================================================== *)

Section FaviconProofs.
Import Favicon.
Local Open Scope string_scope.

Lemma filter_complement {A : Type} (p : A -> bool) (l : list A) :
  filter p (filter (fun a => negb (p a)) l) = [].
Proof.
  induction l as [|a l IH]; [reflexivity|]. simpl.
  destruct (p a) eqn:E; simpl; [assumption|]. now rewrite E.
Qed.

Lemma installed_are_icon_links (favicon32 favicon16 : string) :
  filter is_icon_link (installed favicon32 favicon16) = installed favicon32 favicon16.
Proof. reflexivity. Qed.

(** The selector takes [rel] in any letter case: an upper-case icon link in
    the head is removed, and one with mixed case outside the head makes
    the attempt fail. *)
Lemma selector_ignores_case :
  is_icon_link (mkElement "link" "ICON" "/a.ico" "") = true /\
  is_icon_link (mkElement "link" "Shortcut Icon" "/b.ico" "") = true /\
  updateFaviconInBrowser (fun _ _ _ => Some "png") false 0%R
    (mkDocument [ mkElement "link" "ICON" "/a.ico" "" ]
                [ mkElement "link" "Shortcut Icon" "/b.ico" "" ])
  = (mkDocument [] [ mkElement "link" "Shortcut Icon" "/b.ico" "" ], Failed).
Proof. repeat split. Qed.

Section WithCanvas.
Variable createDonutTimerDataURL : bool -> R -> Z -> option string.
Variables (isActive : bool) (progress : R) (favicon32 favicon16 : string).
Hypothesis canvas32 : createDonutTimerDataURL isActive progress 32 = Some favicon32.
Hypothesis canvas16 : createDonutTimerDataURL isActive progress 16 = Some favicon16.

Lemma attempt_succeeds (doc : document) :
  existsb is_icon_link (elsewhere doc) = false ->
  updateFaviconInBrowser createDonutTimerDataURL isActive progress doc
  = (mkDocument (filter (fun e => negb (is_icon_link e)) (head doc)
                 ++ installed favicon32 favicon16)
                (elsewhere doc),
     Updated).
Proof.
  intros He. unfold updateFaviconInBrowser.
  rewrite canvas32, canvas16. cbn [elsewhere head]. rewrite He. reflexivity.
Qed.

Lemma attempt_head (doc : document) :
  existsb is_icon_link (elsewhere doc) = false ->
  let doc' := fst (updateFaviconInBrowser createDonutTimerDataURL isActive progress doc) in
  filter is_icon_link (head doc') = installed favicon32 favicon16 /\
  elsewhere doc' = elsewhere doc.
Proof.
  intros He. rewrite (attempt_succeeds doc He). cbn [fst head elsewhere].
  rewrite filter_app, filter_complement, installed_are_icon_links. auto.
Qed.


End WithCanvas.




End FaviconProofs.

(* ================================================================== *)
(** ** Further properties of the countdown engine *)
(* ================================================================== *)

Section EngineFurther.
Import Engine.
Local Open Scope Z_scope.

(** Ticks leave a state without armed timers as it is. *)
Lemma unarmed_tick now ev w w' :
  wf w -> isActive w && (0 <? timeRemaining w) = false -> is_tick ev = true ->
  step now ev w = Some w' -> wf w' /\ view w' = view w /\ title w' = title w.
Proof.
  intros Hwf Hun Hev Hs. destruct (step_sim _ _ _ _ Hwf Hs) as [Hwf' Hv].
  assert (Hview : view w' = view w).
  { rewrite Hv, (view_eta w).
    destruct ev; try discriminate; cbn [step_view]; now rewrite Hun. }
  split; [assumption|]. split; [assumption|].
  rewrite (wf_title w Hwf), (wf_title w' Hwf').
  rewrite (view_eta w), (view_eta w') in Hview. now injection Hview as -> -> _.
Qed.

Lemma unarmed_run tr : forall w w',
  wf w -> isActive w && (0 <? timeRemaining w) = false -> all_ticks tr = true ->
  run tr w = Some w' -> wf w' /\ view w' = view w /\ title w' = title w.
Proof.
  induction tr as [|[now ev] tr IH]; intros w w' Hwf Hun Hall Hrun; simpl in *.
  - injection Hrun as <-. auto.
  - destruct (step now ev w) as [w1|] eqn:Hs; [|discriminate].
    apply andb_prop in Hall as [Hev Hall].
    destruct (unarmed_tick now ev w w1 Hwf Hun Hev Hs) as (Hwf1 & Hv1 & Ht1).
    assert (Hun1 : isActive w1 && (0 <? timeRemaining w1) = false).
    { rewrite (view_eta w), (view_eta w1) in Hv1. now injection Hv1 as -> -> _. }
    destruct (IH w1 w' Hwf1 Hun1 Hall Hrun) as (Hwf' & Hv' & Ht').
    split; [assumption|]. split; congruence.
Qed.

Lemma run_bounded_last tr : forall t w w',
  wf w -> bounded t w -> monotone t tr -> run tr w = Some w' ->
  wf w' /\ bounded (last_time t tr) w'.
Proof.
  induction tr as [|[now ev] tr IH]; intros t w w' Hwf Hb Hm Hrun; simpl in *.
  - injection Hrun as <-. auto.
  - destruct (step now ev w) as [w1|] eqn:Hs; [|discriminate].
    destruct Hm as [Ht Hm].
    apply (IH now w1); [now apply (step_sim now ev w) | | assumption | assumption].
    now apply (step_bounded t now ev w).
Qed.

(** X1.  Reset, from any reachable state and at any time, is delivered and
    leaves the pristine state: stopped, the full 25 minutes, no deadline,
    the fixed title, and no frame, interval or listener alive. *)
Theorem reset_restores_pristine (now : Z) (w : world) :
  reachable w ->
  exists w',
    step now ClickReset w = Some w' /\
    isActive w' = false /\ timeRemaining w' = totalTime /\ timerEndRef w' = None /\
    title w' = "Pomodoro Timer"%string /\
    frames w' = [] /\ intervals w' = [] /\ listeners w' = [].
Proof.
  intros Hreach. pose proof (reachable_wf _ Hreach) as Hwf.
  exists (rerender now w (resetTimer w)). split; [reflexivity|].
  destruct (step_sim now ClickReset w _ Hwf eq_refl) as [Hwf' Hv].
  rewrite (view_eta w) in Hv. cbn [step_view] in Hv.
  apply view_fields in Hv as (Ha & Hr & Hd).
  destruct (wf_stopped_lists _ Hwf') as (_ & _ & Hf & Hi & Hl).
  { now rewrite Ha. }
  repeat split; try assumption.
  rewrite (wf_title _ Hwf'), Ha, Hr. reflexivity.
Qed.

Lemma reset_restores_pristine_witness :
  exists w w',
    run [(1000, ClickStart); (11000, Interval 2%positive)] (mount 0) = Some w /\
    isActive w = true /\ timeRemaining w = 1490 /\
    step 11500 ClickReset w = Some w' /\
    isActive w' = false /\ timeRemaining w' = totalTime /\ timerEndRef w' = None /\
    title w' = "Pomodoro Timer"%string /\
    frames w' = [] /\ intervals w' = [] /\ listeners w' = [].
Proof.
  eexists.
  assert (Hrun : run [(1000, ClickStart); (11000, Interval 2%positive)] (mount 0)
                 = Some _) by (vm_compute; reflexivity).
  destruct (reset_restores_pristine 11500 _
              (ex_intro _ 0 (ex_intro _ _ Hrun))) as (w' & H).
  exists w'. split; [exact Hrun|]. split; [reflexivity|]. split; [reflexivity|].
  exact H.
Defined.

(** X2.  In every reachable state each pending frame, live interval and
    registered visibility listener closes over the current [isActive] and
    [timeRemaining], there is at most one of each, the refs hold the
    handles of the pending frame and the live interval, and they exist
    exactly while the timer is active with time remaining: no callback of
    an earlier render survives. *)
Theorem callbacks_are_current (w : world) :
  reachable w ->
  (forall h c, In (h, c) (frames w ++ intervals w ++ listeners w) ->
     c = mkClosure (isActive w) (timeRemaining w) /\
     isActive w = true /\ 0 < timeRemaining w) /\
  (List.length (frames w) <= 1 /\ List.length (intervals w) <= 1 /\
   List.length (listeners w) <= 1)%nat /\
  (forall h c, In (h, c) (frames w) -> rafIdRef w = Some h) /\
  (forall h c, In (h, c) (intervals w) -> intervalIdRef w = Some h) /\
  (isActive w = true -> 0 < timeRemaining w ->
   frames w <> [] /\ intervals w <> [] /\ listeners w <> []).
Proof.
  intros Hreach.
  destruct (reachable_wf _ Hreach) as [r d h1 h2 l n Hr | b r d n Hb];
    cbn [isActive timeRemaining frames intervals listeners rafIdRef intervalIdRef
         app List.length].
  - split; [|split; [|split; [|split]]].
    + intros h c [E|[E|[E|[]]]]; injection E as _ <-; auto.
    + lia.
    + intros h c [E|[]]. now injection E as -> _.
    + intros h c [E|[]]. now injection E as -> _.
    + intros _ _. repeat split; discriminate.
  - split; [|split; [|split; [|split]]].
    + intros h c [].
    + lia.
    + intros h c [].
    + intros h c [].
    + intros -> Hpos. cbn [andb] in Hb. lia.
Qed.

Lemma callbacks_are_current_witness :
  exists w,
    run [(1000, ClickStart); (11000, Interval 2%positive)] (mount 0) = Some w /\
    frames w = [(4%positive, mkClosure true 1490)] /\
    (forall h c, In (h, c) (frames w ++ intervals w ++ listeners w) ->
       c = mkClosure (isActive w) (timeRemaining w) /\
       isActive w = true /\ 0 < timeRemaining w).
Proof.
  eexists.
  assert (Hrun : run [(1000, ClickStart); (11000, Interval 2%positive)] (mount 0)
                 = Some _) by (vm_compute; reflexivity).
  split; [exact Hrun|]. split; [reflexivity|].
  exact (proj1 (callbacks_are_current _ (ex_intro _ 0 (ex_intro _ _ Hrun)))).
Defined.


(** X3.  A paused timer does not count down: after Pause no frame or
    interval can be delivered, and whatever ticks are delivered at whatever
    times (visibility changes are all that is left) the state stays stopped
    with the seconds and the title it had. *)
Theorem paused_timer_holds
    (w w1 w2 : world) (t : Z) (tr : list (Z * event)) :
  reachable w -> step t ClickPause w = Some w1 ->
  all_ticks tr = true -> run tr w1 = Some w2 ->
  (forall now h, step now (Frame h) w1 = None /\ step now (Interval h) w1 = None) /\
  isActive w2 = false /\ timeRemaining w2 = timeRemaining w /\ title w2 = title w1.
Proof.
  intros Hreach Hp Hall Hrun. pose proof (reachable_wf _ Hreach) as Hwf.
  destruct (step_sim _ _ _ _ Hwf Hp) as [Hwf1 Hv1].
  rewrite (view_eta w) in Hv1. cbn [step_view] in Hv1.
  apply view_fields in Hv1 as (Ha1 & Hr1 & Hd1).
  assert (Hun : isActive w1 && (0 <? timeRemaining w1) = false) by now rewrite Ha1.
  destruct (wf_stopped_lists _ Hwf1 Hun) as (_ & _ & Hf & Hi & _).
  destruct (unarmed_run tr w1 w2 Hwf1 Hun Hall Hrun) as (_ & Hv2 & Ht2).
  rewrite (view_eta w1), (view_eta w2) in Hv2. injection Hv2 as Ha2 Hr2 _.
  split; [|repeat split; congruence].
  intros now h. unfold step. rewrite Hf, Hi. auto.
Qed.

Lemma paused_timer_holds_witness :
  exists w w1 w2,
    run [(1000, ClickStart); (11000, Interval 2%positive)] (mount 0) = Some w /\
    step 11200 ClickPause w = Some w1 /\
    run [(60000, Visible); (3600000, Visible)] w1 = Some w2 /\
    timeRemaining w = 1490 /\
    (forall now h, step now (Frame h) w1 = None /\ step now (Interval h) w1 = None) /\
    isActive w2 = false /\ timeRemaining w2 = timeRemaining w /\ title w2 = title w1.
Proof.
  eexists. eexists. eexists.
  assert (Hrun : run [(1000, ClickStart); (11000, Interval 2%positive)] (mount 0)
                 = Some _) by (vm_compute; reflexivity).
  split; [exact Hrun|].
  split; [vm_compute; reflexivity|].
  split; [vm_compute; reflexivity|].
  split; [reflexivity|].
  refine (paused_timer_holds _ _ _ 11200 [(60000, Visible); (3600000, Visible)]
            (ex_intro _ 0 (ex_intro _ _ Hrun)) _ _ _).
  - vm_compute. reflexivity.
  - reflexivity.
  - vm_compute. reflexivity.
Defined.

(** X4.  Under a clock that never runs backward no tick adds time: the
    remaining seconds after a tick are at most those before it, so the
    progress [1 - timeRemaining / totalTime] never decreases while the
    countdown runs. *)
Theorem ticks_never_add_time
    (t0 now : Z) (tr : list (Z * event)) (ev : event) (w w' : world) :
  monotone t0 (tr ++ [(now, ev)]) -> run tr (mount t0) = Some w ->
  is_tick ev = true -> step now ev w = Some w' ->
  timeRemaining w' <= timeRemaining w /\
  (Geometry.progress (timeRemaining w) <= Geometry.progress (timeRemaining w'))%R.
Proof.
  intros Hm Hrun Hev Hs.
  apply monotone_app in Hm as [Hm1 [Hle _]].
  destruct (run_bounded_last tr t0 (mount t0) w (mount_wf t0) (mount_bounded t0 t0) Hm1 Hrun)
    as [Hwf [Hr Hd]].
  assert (Hle' : timeRemaining w' <= timeRemaining w).
  { destruct (step_sim _ _ _ _ Hwf Hs) as [_ Hv].
    rewrite (view_eta w) in Hv.
    pose proof (ceil_div_bounds (Z.max 0 (to_number (timerEndRef w) - now))) as Hx.
    set (dn := to_number (timerEndRef w)) in *.
    assert (Hv' : view w' = if isActive w && (0 <? timeRemaining w)
                            then tick_view now (timeRemaining w) (timerEndRef w)
                            else (isActive w, timeRemaining w, timerEndRef w)).
    { destruct ev; try discriminate; exact Hv. }
    clear Hv. unfold tick_view in Hv'. fold dn in Hv'.
    set (x := ceil_div (Z.max 0 (dn - now)) 1000) in *.
    destruct (isActive w && (0 <? timeRemaining w)) eqn:Harm.
    - specialize (Hd eq_refl).
      destruct (x <=? 0); apply view_fields in Hv' as (_ & -> & _); lia.
    - apply view_fields in Hv' as (_ & -> & _). lia. }
  split; [assumption|].
  unfold Geometry.progress, totalTime. simpl (IZR (25 * 60)).
  apply IZR_le in Hle'. lra.
Qed.

Lemma ticks_never_add_time_witness :
  exists w w',
    run [(1000, ClickStart); (11000, Interval 2%positive)] (mount 0) = Some w /\
    step 13500 (Frame 4%positive) w = Some w' /\
    timeRemaining w = 1490 /\ timeRemaining w' = 1488 /\
    timeRemaining w' <= timeRemaining w /\
    (Geometry.progress (timeRemaining w) <= Geometry.progress (timeRemaining w'))%R.
Proof.
  eexists. eexists.
  split; [vm_compute; reflexivity|].
  split; [vm_compute; reflexivity|].
  split; [reflexivity|]. split; [reflexivity|].
  refine (ticks_never_add_time 0 13500
            [(1000, ClickStart); (11000, Interval 2%positive)] (Frame 4%positive)
            _ _ _ _ _ _).
  - simpl. lia.
  - vm_compute. reflexivity.
  - reflexivity.
  - vm_compute. reflexivity.
Defined.

(** X5.  The countdown never stops early and never under-reports.  In a
    run segment started at [t0] with [timeRemaining w0] seconds, whatever
    ticks came before, a tick at a time [t] before the deadline leaves the
    timer running and shows the time left to the deadline rounded up to
    whole seconds. *)
Theorem tick_rounds_up
    (w0 w1 w3 : world) (t0 t : Z) (ticks : list (Z * event)) (ev : event) :
  reachable w0 -> 0 < timeRemaining w0 -> 0 <= t0 ->
  step t0 ClickStart w0 = Some w1 ->
  all_ticks ticks = true -> is_tick ev = true ->
  monotone t0 (ticks ++ [(t, ev)]) ->
  run (ticks ++ [(t, ev)]) w1 = Some w3 ->
  t < t0 + timeRemaining w0 * 1000 ->
  isActive w3 = true /\
  timerEndRef w3 = Some (t0 + timeRemaining w0 * 1000) /\
  1000 * (timeRemaining w3 - 1) < t0 + timeRemaining w0 * 1000 - t
    <= 1000 * timeRemaining w3.
Proof.
  intros Hreach Hr Ht0 Hstart Hall Hev Hmono Hrun Hbefore.
  pose proof (reachable_wf _ Hreach) as Hwf0.
  destruct (step_sim _ _ _ _ Hwf0 Hstart) as [Hwf1 _].
  destruct (start_view _ _ _ Hwf0 Hstart) as [_ Hv1].
  set (r0 := timeRemaining w0) in *. set (D := t0 + r0 * 1000) in *.
  assert (Hseg1 : segment D t0 w1).
  { apply view_fields in Hv1 as (Ha & Hr1 & Hd).
    apply seg_running; [unfold view; congruence | lia]. }
  rewrite run_app in Hrun.
  destruct (run ticks w1) as [w2|] eqn:Hrun2; [|discriminate].
  apply monotone_app in Hmono as [Hm1 Hm2].
  destruct (segment_run D ticks t0 w1 w2 ltac:(lia) Hwf1 Hseg1 Hm1 Hall Hrun2)
    as [Hwf2 Hseg2].
  simpl in Hrun, Hm2. destruct (step t ev w2) as [w3'|] eqn:Hs; [|discriminate].
  injection Hrun as ->. destruct Hm2 as [Hle _].
  destruct (segment_tick D _ t ev w2 w3 ltac:(lia) Hwf2 Hseg2 Hle Hev Hs) as [Hseg3 H3].
  pose proof (ceil_div_bounds (Z.max 0 (D - t))) as Hx.
  destruct Hseg3 as [w3 E Hpos | w3 E HD]; [|lia].
  apply view_fields in E as (Ha & _ & Hd).
  repeat split; try assumption; lia.
Qed.

Lemma tick_rounds_up_witness :
  exists w1 w3,
    step 1000 ClickStart (mount 0) = Some w1 /\
    run ([(1016, Frame 1%positive); (2000, Interval 2%positive)]
         ++ [(1500999, Visible)]) w1 = Some w3 /\
    timeRemaining w3 = 1 /\
    isActive w3 = true /\
    timerEndRef w3 = Some (1000 + timeRemaining (mount 0) * 1000) /\
    1000 * (timeRemaining w3 - 1) < 1000 + timeRemaining (mount 0) * 1000 - 1500999
      <= 1000 * timeRemaining w3.
Proof.
  eexists. eexists.
  split; [vm_compute; reflexivity|].
  split; [vm_compute; reflexivity|].
  split; [reflexivity|].
  refine (tick_rounds_up (mount 0) _ _ 1000 1500999
            [(1016, Frame 1%positive); (2000, Interval 2%positive)] Visible
            _ _ _ _ _ _ _ _ _).
  - exists 0, []. reflexivity.
  - vm_compute. reflexivity.
  - lia.
  - vm_compute. reflexivity.
  - reflexivity.
  - reflexivity.
  - simpl. lia.
  - vm_compute. reflexivity.
  - vm_compute. reflexivity.
Defined.

(** X6.  Nothing clamps the remaining time from above.  If the wall clock
    is set back by [k] whole seconds after a Start, the first tick shows
    [k] seconds more than the countdown started with and the timer keeps
    running; started from the full time this exceeds [totalTime]. *)
Theorem backward_clock_adds_time
    (w0 w1 w2 : world) (t0 k : Z) (ev : event) :
  reachable w0 -> 0 < timeRemaining w0 -> 0 <= t0 -> 0 <= k ->
  step t0 ClickStart w0 = Some w1 ->
  is_tick ev = true -> step (t0 - 1000 * k) ev w1 = Some w2 ->
  isActive w2 = true /\ timeRemaining w2 = timeRemaining w0 + k.
Proof.
  intros Hreach Hr Ht0 Hk Hstart Hev Hs.
  pose proof (reachable_wf _ Hreach) as Hwf0.
  destruct (step_sim _ _ _ _ Hwf0 Hstart) as [Hwf1 _].
  destruct (start_view _ _ _ Hwf0 Hstart) as [_ Hv1].
  destruct (step_sim _ _ _ _ Hwf1 Hs) as [_ Hv2].
  rewrite Hv1 in Hv2.
  set (r0 := timeRemaining w0) in *.
  assert (Hpos : (0 <? r0) = true) by lia.
  assert (Hv2' : view w2 = tick_view (t0 - 1000 * k) r0 (Some (t0 + r0 * 1000))).
  { destruct ev; try discriminate; cbn [step_view andb] in Hv2; now rewrite Hpos in Hv2. }
  clear Hv2. unfold tick_view in Hv2'. cbn [to_number] in Hv2'.
  pose proof (ceil_div_bounds (Z.max 0 (t0 + r0 * 1000 - (t0 - 1000 * k)))) as Hx.
  set (x := ceil_div (Z.max 0 (t0 + r0 * 1000 - (t0 - 1000 * k))) 1000) in *.
  assert (x = r0 + k) by lia.
  destruct (x <=? 0) eqn:Hle; [lia|].
  apply view_fields in Hv2' as (Ha & Hr2 & _). split; congruence.
Qed.

Lemma backward_clock_adds_time_witness :
  exists w1 w2,
    step 100000 ClickStart (mount 0) = Some w1 /\
    step (100000 - 1000 * 30) (Interval 2%positive) w1 = Some w2 /\
    isActive w2 = true /\ timeRemaining w2 = timeRemaining (mount 0) + 30 /\
    totalTime < timeRemaining w2.
Proof.
  eexists. eexists.
  split; [vm_compute; reflexivity|].
  split; [vm_compute; reflexivity|].
  refine ((fun H => conj (proj1 H) (conj (proj2 H) _))
            (backward_clock_adds_time (mount 0) _ _ 100000 30 (Interval 2%positive)
               _ _ _ _ _ _ _)).
  - vm_compute. reflexivity.
  - exists 0, []. reflexivity.
  - vm_compute. reflexivity.
  - lia.
  - lia.
  - vm_compute. reflexivity.
  - reflexivity.
  - vm_compute. reflexivity.
Defined.

(** X7.  Start with nothing remaining.  At 00:00 the Start button is
    offered; pressing it sets [isActive] although the effect arms nothing:
    the title reads "00:00 - Pomodoro", no frame, interval or listener is
    alive, and the remaining time stays zero. *)
Theorem start_at_zero_arms_nothing (now : Z) (w : world) :
  reachable w -> isActive w = false -> timeRemaining w = 0 ->
  exists w',
    step now ClickStart w = Some w' /\
    isActive w' = true /\ timeRemaining w' = 0 /\
    title w' = "00:00 - Pomodoro"%string /\
    frames w' = [] /\ intervals w' = [] /\ listeners w' = [].
Proof.
  intros Hreach Ha Hr. pose proof (reachable_wf _ Hreach) as Hwf.
  destruct (step now ClickStart w) as [w'|] eqn:Hs.
  - exists w'. split; [reflexivity|].
    destruct (step_sim _ _ _ _ Hwf Hs) as [Hwf' _].
    destruct (start_view _ _ _ Hwf Hs) as [_ Hv].
    rewrite Hr in Hv. apply view_fields in Hv as (Ha' & Hr' & _).
    destruct (wf_stopped_lists _ Hwf') as (_ & _ & Hf & Hi & Hl).
    { rewrite Ha', Hr'. reflexivity. }
    repeat split; try assumption.
    rewrite (wf_title _ Hwf'), Ha', Hr'. reflexivity.
  - unfold step in Hs. rewrite Ha in Hs. discriminate.
Qed.

Lemma start_at_zero_arms_nothing_witness :
  exists w w',
    run [(1000, ClickStart); (1501000, Interval 2%positive)] (mount 0) = Some w /\
    step 1600000 ClickStart w = Some w' /\
    isActive w' = true /\ timeRemaining w' = 0 /\
    title w' = "00:00 - Pomodoro"%string /\
    frames w' = [] /\ intervals w' = [] /\ listeners w' = [].
Proof.
  eexists.
  assert (Hrun : run [(1000, ClickStart); (1501000, Interval 2%positive)] (mount 0)
                 = Some _) by (vm_compute; reflexivity).
  destruct (start_at_zero_arms_nothing 1600000 _
              (ex_intro _ 0 (ex_intro _ _ Hrun)) eq_refl eq_refl) as (w' & H).
  exists w'. split; [exact Hrun | exact H].
Defined.

End EngineFurther.

(* ================================================================== *)
(** ** Further properties of the time display and the title *)
(* ================================================================== *)

Section DisplayFurther.
Import Engine.
Local Open Scope Z_scope.

Lemma toString_one_digit n :
  0 <= n < 10 -> toString n = String (digit n) EmptyString.
Proof.
  intros Hn. unfold toString, digits_fuel.
  assert (Hneg : (n <? 0) = false) by lia. rewrite Hneg. cbn [digits].
  assert (Hlt : (n <? 10) = true) by lia. rewrite Hlt.
  now rewrite Z.mod_small by lia.
Qed.

Lemma toString_two_digits n :
  10 <= n < 100 ->
  toString n = String (digit (n / 10)) (String (digit (n mod 10)) EmptyString).
Proof.
  intros Hn. unfold toString, digits_fuel.
  assert (Hneg : (n <? 0) = false) by lia. rewrite Hneg. cbn [digits].
  assert (Hlt : (n <? 10) = false) by lia. rewrite Hlt.
  assert (H3 : 3 <= Z.log2 n).
  { change 3 with (Z.log2 8). apply Z.log2_le_mono. lia. }
  destruct (Z.to_nat (Z.log2 n)) as [|f] eqn:Hf; [lia|]. cbn [digits].
  assert (Hq : 0 <= n / 10 < 10).
  { split; [apply Z.div_pos; lia | apply Z.div_lt_upper_bound; lia]. }
  assert (Hlt' : (n / 10 <? 10) = true) by lia. rewrite Hlt'.
  now rewrite (Z.mod_small (n / 10)) by lia.
Qed.

Lemma two_digits_shape n :
  0 <= n < 100 ->
  Spec.two_digits n = String (digit (n / 10)) (String (digit (n mod 10)) EmptyString).
Proof.
  intros Hn. unfold Spec.two_digits. destruct (n <? 10) eqn:Hlt.
  - rewrite toString_one_digit by lia.
    rewrite Z.div_small, Z.mod_small by lia. reflexivity.
  - apply toString_two_digits. lia.
Qed.

Lemma formatTime_shape s :
  0 <= s < 6000 ->
  formatTime s
  = String (digit (s / 600))
      (String (digit ((s / 60) mod 10))
         (String ":"%char
            (String (digit ((s mod 60) / 10))
               (String (digit (s mod 10)) EmptyString)))).
Proof.
  intros Hs. rewrite formatTime_mmss by lia. unfold Spec.mmss.
  assert (Hm : 0 <= s / 60 < 100).
  { split; [apply Z.div_pos; lia | apply Z.div_lt_upper_bound; lia]. }
  pose proof (Z.mod_pos_bound s 60 ltac:(lia)) as Hsec.
  rewrite !two_digits_shape by lia.
  rewrite Z.div_div by lia. change (60 * 10) with 600.
  replace ((s mod 60) mod 10) with (s mod 10) by (Z.div_mod_to_equations; lia).
  reflexivity.
Qed.

Lemma digit_cases n : 0 <= n <= 9 -> In n [0; 1; 2; 3; 4; 5; 6; 7; 8; 9].
Proof. intros Hn. cbn [In]. lia. Qed.

Lemma digit_inj a b : 0 <= a <= 9 -> 0 <= b <= 9 -> digit a = digit b -> a = b.
Proof.
  intros Ha Hb.
  pose proof (digit_cases a Ha) as Ca. pose proof (digit_cases b Hb) as Cb.
  cbn [In] in Ca, Cb.
  repeat (destruct Ca as [<-|Ca];
          [repeat (destruct Cb as [<-|Cb];
                   [cbn [digit]; intros E; solve [reflexivity | discriminate E]|]);
           contradiction|]).
  contradiction.
Qed.

Lemma digit_not_P n : 0 <= n <= 9 -> digit n <> "P"%char.
Proof.
  intros Hn. pose proof (digit_cases n Hn) as Cn. cbn [In] in Cn.
  repeat (destruct Cn as [<-|Cn]; [cbn [digit]; discriminate|]).
  contradiction.
Qed.

Lemma time_digits s :
  0 <= s < 6000 ->
  0 <= s / 600 <= 9 /\ 0 <= (s / 60) mod 10 <= 9 /\
  0 <= (s mod 60) / 10 <= 9 /\ 0 <= s mod 10 <= 9.
Proof. intros Hs. repeat split; Z.div_mod_to_equations; lia. Qed.

Lemma time_of_digits s1 s2 :
  0 <= s1 < 6000 -> 0 <= s2 < 6000 ->
  s1 / 600 = s2 / 600 -> (s1 / 60) mod 10 = (s2 / 60) mod 10 ->
  (s1 mod 60) / 10 = (s2 mod 60) / 10 -> s1 mod 10 = s2 mod 10 ->
  s1 = s2.
Proof. intros H1 H2. Z.div_mod_to_equations. lia. Qed.

Lemma formatTime_inj s1 s2 :
  0 <= s1 < 6000 -> 0 <= s2 < 6000 -> formatTime s1 = formatTime s2 -> s1 = s2.
Proof.
  intros H1 H2. rewrite !formatTime_shape by assumption.
  destruct (time_digits s1 H1) as (A1 & B1 & C1 & D1).
  destruct (time_digits s2 H2) as (A2 & B2 & C2 & D2).
  intros E. injection E as Ea Eb Ec Ed.
  apply digit_inj in Ea, Eb, Ec, Ed; try assumption.
  now apply time_of_digits.
Qed.

Lemma titleText_inj b1 r1 b2 r2 :
  0 <= r1 < 6000 -> 0 <= r2 < 6000 ->
  titleText b1 r1 = titleText b2 r2 -> b1 = b2 /\ r1 = r2.
Proof.
  intros H1 H2. unfold titleText.
  destruct (time_digits r1 H1) as (A1 & _). destruct (time_digits r2 H2) as (A2 & _).
  pose proof (digit_not_P _ A1) as P1. pose proof (digit_not_P _ A2) as P2.
  pose proof (formatTime_inj r1 r2 H1 H2) as Hinj.
  rewrite (formatTime_shape r1 H1), (formatTime_shape r2 H2) in *.
  destruct b1, b2; cbn [negb andb append].
  - intros E. split; [reflexivity|]. apply Hinj.
    injection E as -> -> -> ->. reflexivity.
  - destruct (Z.eqb_spec r2 (25 * 60)).
    + intros E. injection E as E _. congruence.
    + intros E. discriminate E.
  - destruct (Z.eqb_spec r1 (25 * 60)).
    + intros E. injection E as E _. congruence.
    + intros E. discriminate E.
  - destruct (Z.eqb_spec r1 (25 * 60)), (Z.eqb_spec r2 (25 * 60)).
    + intros _. split; [reflexivity | congruence].
    + intros E. injection E as E _. congruence.
    + intros E. injection E as E _. congruence.
    + intros E. split; [reflexivity|]. apply Hinj.
      injection E as -> -> -> ->. reflexivity.
Qed.

(** X8.  For every time below 100 minutes [formatTime] yields exactly the
    five characters [mm:ss]: tens and units of the minutes, a colon, tens
    and units of the seconds; and different times are displayed
    differently. *)
Theorem formatTime_is_mm_ss (s s' : Z) :
  0 <= s < 6000 -> 0 <= s' < 6000 ->
  formatTime s
  = String (digit (s / 600))
      (String (digit ((s / 60) mod 10))
         (String ":"%char
            (String (digit ((s mod 60) / 10))
               (String (digit (s mod 10)) EmptyString)))) /\
  String.length (formatTime s) = 5%nat /\
  (formatTime s = formatTime s' -> s = s').
Proof.
  intros Hs Hs'. split; [now apply formatTime_shape|]. split.
  - now rewrite formatTime_shape.
  - now apply formatTime_inj.
Qed.

Lemma formatTime_is_mm_ss_witness :
  formatTime 1490 = "24:50"%string /\
  String.length (formatTime 1490) = 5%nat /\
  (formatTime 1490 = formatTime 65 -> 1490 = 65).
Proof.
  exact (formatTime_is_mm_ss 1490 65 ltac:(lia) ltac:(lia)).
Defined.

(** X9.  Under a clock that never runs backward the tab title tells the
    state: two reachable states with the same title agree on whether the
    timer runs and on the seconds remaining. *)
Theorem title_determines_state
    (t1 t2 : Z) (tr1 tr2 : list (Z * event)) (w1 w2 : world) :
  monotone t1 tr1 -> run tr1 (mount t1) = Some w1 ->
  monotone t2 tr2 -> run tr2 (mount t2) = Some w2 ->
  title w1 = title w2 ->
  isActive w1 = isActive w2 /\ timeRemaining w1 = timeRemaining w2.
Proof.
  intros Hm1 Hr1 Hm2 Hr2 Ht.
  destruct (run_bounded tr1 t1 _ w1 (mount_wf t1) (mount_bounded t1 t1) Hm1 Hr1)
    as [? [Hb1 _]].
  destruct (run_bounded tr2 t2 _ w2 (mount_wf t2) (mount_bounded t2 t2) Hm2 Hr2)
    as [? [Hb2 _]].
  unfold totalTime in *.
  rewrite (wf_title w1 (run_wf tr1 _ _ (mount_wf t1) Hr1)) in Ht.
  rewrite (wf_title w2 (run_wf tr2 _ _ (mount_wf t2) Hr2)) in Ht.
  apply titleText_inj in Ht; [assumption | lia | lia].
Qed.

Lemma title_determines_state_witness :
  exists w1 w2,
    run [(1000, ClickStart); (11000, Interval 2%positive)] (mount 0) = Some w1 /\
    run [(500, ClickStart); (600, ClickReset); (7000, ClickStart); (17000, Visible)]
        (mount 400) = Some w2 /\
    title w1 = "24:50 - Pomodoro"%string /\
    isActive w1 = isActive w2 /\ timeRemaining w1 = timeRemaining w2.
Proof.
  eexists. eexists.
  split; [vm_compute; reflexivity|].
  split; [vm_compute; reflexivity|].
  split; [reflexivity|].
  refine (title_determines_state 0 400
            [(1000, ClickStart); (11000, Interval 2%positive)]
            [(500, ClickStart); (600, ClickReset); (7000, ClickStart); (17000, Visible)]
            _ _ _ _ _ _ _).
  - simpl. lia.
  - vm_compute. reflexivity.
  - simpl. lia.
  - vm_compute. reflexivity.
  - vm_compute. reflexivity.
Defined.

End DisplayFurther.

(* ================================================================== *)
(** ** Further properties of the clip path *)
(* ================================================================== *)

Section GeometryFurther.
Import Geometry.
Local Open Scope R_scope.

Lemma tan_within_one (x : R) : - (PI / 4) <= x <= PI / 4 -> -1 <= tan x <= 1.
Proof.
  intros [Hlo Hhi]. pose proof PI_RGT_0 as Hpi. split.
  - destruct (Req_dec x (- (PI / 4))) as [->|Hne].
    + rewrite tan_neg, tan_PI4. lra.
    + assert (H : tan (- (PI / 4)) < tan x) by (apply tan_increasing; lra).
      rewrite tan_neg, tan_PI4 in H. lra.
  - destruct (Req_dec x (PI / 4)) as [->|Hne].
    + rewrite tan_PI4. lra.
    + assert (H : tan x < tan (PI / 4)) by (apply tan_increasing; lra).
      rewrite tan_PI4 in H. lra.
Qed.

Lemma eighth_turn (a : R) : -1 / 8 <= a <= 1 / 8 -> - (PI / 4) <= a * 2 * PI <= PI / 4.
Proof. intros Ha. pose proof PI_RGT_0. nra. Qed.

Lemma plus_tan_in_range (a : R) :
  -1 / 8 <= a <= 1 / 8 -> 0 <= 50 + 50 * tan (a * 2 * PI) <= 100.
Proof. intros Ha. pose proof (tan_within_one _ (eighth_turn a Ha)). lra. Qed.

Lemma minus_tan_in_range (a : R) :
  -1 / 8 <= a <= 1 / 8 -> 0 <= 50 - 50 * tan (a * 2 * PI) <= 100.
Proof. intros Ha. pose proof (tan_within_one _ (eighth_turn a Ha)). lra. Qed.

Lemma clip_path_in_box (p : R) :
  0 <= p <= 1 -> Forall in_box (getProgressClipPath p).
Proof.
  intros Hp. unfold getProgressClipPath.
  assert (Hc : in_box center) by (unfold in_box, center; simpl; lra).
  assert (Hcorner : forall x y, (x = 0 \/ x = 100) -> (y = 0 \/ y = 100) -> in_box (x, y)).
  { intros x y [-> | ->] [-> | ->]; unfold in_box; simpl; lra. }
  repeat apply Forall_cons; try apply Forall_nil; try assumption.
  - unfold in_box, top; simpl; lra.
  - destruct (Rgt_dec p 0.125); [apply Hcorner; auto|].
    unfold in_box, top_edge_out; cbn [fst snd].
    split; [apply plus_tan_in_range; lra | lra].
  - destruct (Rgt_dec p 0.375); [apply Hcorner; auto|].
    destruct (Rgt_dec p 0.125); [|assumption].
    unfold in_box, right_edge; cbn [fst snd].
    split; [lra | apply minus_tan_in_range; lra].
  - destruct (Rgt_dec p 0.625); [apply Hcorner; auto|].
    destruct (Rgt_dec p 0.375); [|assumption].
    unfold in_box, bottom_edge; cbn [fst snd].
    split; [apply minus_tan_in_range; lra | lra].
  - destruct (Rgt_dec p 0.875); [apply Hcorner; auto|].
    destruct (Rgt_dec p 0.625); [|assumption].
    unfold in_box, left_edge; cbn [fst snd].
    split; [lra | apply plus_tan_in_range; lra].
  - destruct (Rgt_dec p 0.875); [|assumption].
    unfold in_box, top_edge_back; cbn [fst snd].
    split; [apply minus_tan_in_range; lra | lra].
Qed.

(** X10.  Under a clock that never runs backward the progress of every
    reachable state lies between 0 and 1, and the clip path computed from
    it has seven vertices, each a well-defined point within the box (0% to
    100% on both axes): every tangent is taken within an eighth of a turn
    of zero. *)
Theorem clip_path_stays_in_box
    (t0 : Z) (tr : list (Z * Engine.event)) (w : Engine.world) :
  Engine.monotone t0 tr -> Engine.run tr (Engine.mount t0) = Some w ->
  0 <= progress (Engine.timeRemaining w) <= 1 /\
  List.length (getProgressClipPath (progress (Engine.timeRemaining w))) = 7%nat /\
  Forall in_box (getProgressClipPath (progress (Engine.timeRemaining w))).
Proof.
  intros Hm Hrun.
  destruct (run_bounded tr t0 _ w (mount_wf t0) (mount_bounded t0 t0) Hm Hrun)
    as [? [[Hlo Hhi] _]].
  assert (Hp : 0 <= progress (Engine.timeRemaining w) <= 1).
  { rewrite progress_eq. unfold Engine.totalTime in Hhi.
    apply IZR_le in Hlo, Hhi. simpl in Hhi. lra. }
  split; [assumption|]. split; [reflexivity|].
  now apply clip_path_in_box.
Qed.

Lemma clip_path_stays_in_box_witness :
  exists w,
    Engine.run [(1000%Z, Engine.ClickStart); (400000%Z, Engine.Visible)] (Engine.mount 0)
    = Some w /\
    Engine.timeRemaining w = 1101%Z /\
    Forall in_box (getProgressClipPath (progress (Engine.timeRemaining w))).
Proof.
  eexists. split; [vm_compute; reflexivity|]. split; [reflexivity|].
  refine (proj2 (proj2 (clip_path_stays_in_box 0
            [(1000%Z, Engine.ClickStart); (400000%Z, Engine.Visible)] _ _ _))).
  - simpl. lia.
  - vm_compute. reflexivity.
Defined.

End GeometryFurther.

(* ================================================================== *)
(** ** Further properties of the favicon installer *)
(* ================================================================== *)

Section FaviconFurther.
Import Favicon.
Local Open Scope string_scope.

Lemma filter_idem {A : Type} (p : A -> bool) (l : list A) :
  filter p (filter p l) = filter p l.
Proof.
  induction l as [|a l IH]; [reflexivity|]. simpl.
  destruct (p a) eqn:E; simpl; [rewrite E; f_equal|]; assumption.
Qed.


(** X11.  Whatever the canvas and the document, one execution of the
    installer never touches an element outside the head and keeps every
    head element that is not an icon link, in order; when the canvas
    fails, the document is left exactly as it was and the attempt reports
    failure. *)
Theorem installer_touches_only_icon_links
    (createDonutTimerDataURL : bool -> R -> Z -> option string)
    (isActive : bool) (progress : R) (doc : document) :
  let result := updateFaviconInBrowser createDonutTimerDataURL isActive progress doc in
  elsewhere (fst result) = elsewhere doc /\
  filter (fun e => negb (is_icon_link e)) (head (fst result))
  = filter (fun e => negb (is_icon_link e)) (head doc) /\
  (createDonutTimerDataURL isActive progress 32%Z = None \/
   createDonutTimerDataURL isActive progress 16%Z = None ->
   result = (doc, Failed)).
Proof.
  cbv zeta. unfold updateFaviconInBrowser.
  destruct (createDonutTimerDataURL isActive progress 32%Z) as [f32|];
    [destruct (createDonutTimerDataURL isActive progress 16%Z) as [f16|]|].
  - destruct (existsb is_icon_link (elsewhere doc)); cbn [fst head elsewhere].
    + split; [reflexivity|]. split; [apply filter_idem|].
      intros [E|E]; discriminate E.
    + split; [reflexivity|]. split.
      * rewrite filter_app, filter_idem.
        change (filter (fun e => negb (is_icon_link e)) _)
          with (@nil element) at 2.
        apply app_nil_r.
      * intros [E|E]; discriminate E.
  - auto.
  - auto.
Qed.



End FaviconFurther.

(* ================================================================== *)
(** ** Properties of the favicon effect and its retries *)
(* ================================================================== *)

Section RetryProofs.
Import Favicon Retry.
Local Open Scope string_scope.

Variable createDonutTimerDataURL : bool -> R -> Z -> option string.

Lemma cleanup_clears (ids : list positive) : forall p,
  (forall id delay c, In (id, delay, c) (timeouts p) -> In id ids) ->
  let p' := fold_left (fun acc id => clearTimeout id acc) ids p in
  timeouts p' = [] /\ doc p' = doc p /\ nextId p' = nextId p.
Proof.
  induction ids as [|a ids IH]; intros p Hall; cbn [fold_left].
  - split; [|auto]. destruct (timeouts p) as [|[[id delay] c] l]; [reflexivity|].
    destruct (Hall id delay c (or_introl eq_refl)).
  - destruct (IH (clearTimeout a p)) as (H1 & H2 & H3).
    + intros id delay c Hin. unfold clearTimeout in Hin. cbn [timeouts] in Hin.
      apply filter_In in Hin as [Hin Hne]. cbn [fst] in Hne.
      destruct (Hall id delay c Hin) as [<-|Hin']; [|assumption].
      rewrite Pos.eqb_refl in Hne. discriminate.
    + cbv zeta. auto.
Qed.

Lemma find_In id : forall l c,
  find id l = Some c -> exists delay, In (id, delay, c) l.
Proof.
  induction l as [|[[id' delay'] c'] l IH]; intros c Hf; cbn [find] in Hf.
  - discriminate.
  - destruct (Pos.eqb_spec id' id) as [->|Hne].
    + injection Hf as ->. exists delay'. now left.
    + destruct (IH c Hf) as [delay Hin]. exists delay. now right.
Qed.

Section WithCanvas.

Variable png : bool -> R -> Z -> string.
Hypothesis canvas : forall b p size, createDonutTimerDataURL b p size = Some (png b p size).

Lemma runUpdate_doc c p :
  existsb is_icon_link (elsewhere (doc p)) = false ->
  existsb is_icon_link (elsewhere (doc (runUpdate createDonutTimerDataURL c p))) = false /\
  filter is_icon_link (head (doc (runUpdate createDonutTimerDataURL c p)))
  = installed (png (s_isActive c) (s_progress c) 32)
              (png (s_isActive c) (s_progress c) 16).
Proof.
  intros He. unfold runUpdate. cbn [doc].
  destruct (attempt_head createDonutTimerDataURL (s_isActive c) (s_progress c) _ _
              (canvas _ _ 32%Z) (canvas _ _ 16%Z) (doc p) He) as [H1 H2].
  cbv zeta in H1, H2. split; [now rewrite H2 | assumption].
Qed.

Lemma render_settles b pr p :
  (forall id delay c, In (id, delay, c) (timeouts p) -> In id (cleanupIds p)) ->
  existsb is_icon_link (elsewhere (doc p)) = false ->
  settled png (mkShot b pr)
          (effectBody createDonutTimerDataURL (mkShot b pr) (effectCleanup p)).
Proof.
  intros Hall He.
  destruct (cleanup_clears (cleanupIds p) p Hall) as (Ht & Hd & Hn).
  cbv zeta in Ht, Hd, Hn. fold (effectCleanup p) in Ht, Hd, Hn.
  assert (He' : existsb is_icon_link (elsewhere (doc (effectCleanup p))) = false)
    by now rewrite Hd.
  destruct (runUpdate_doc (mkShot b pr) (effectCleanup p) He') as [H1 H2].
  unfold settled, fresh_only, effectBody, setTimeout.
  cbn [doc timeouts cleanupIds nextId fst snd].
  change (timeouts (runUpdate createDonutTimerDataURL (mkShot b pr) (effectCleanup p)))
    with (timeouts (effectCleanup p)).
  rewrite Ht. cbn [app List.length].
  split; [split|split; assumption].
  - intros id delay c [E|[E|[]]]; injection E as <- _ <-; cbn [In]; auto.
  - lia.
Qed.

Lemma step_settles ev c p p' :
  settled png c p -> step createDonutTimerDataURL ev p = Some p' ->
  settled png (last_shot c [ev]) p'.
Proof.
  intros [[Hfresh Hlen] [He Hd]] Hs. destruct ev as [b pr | id |]; cbn [step] in Hs.
  - injection Hs as <-. cbn [last_shot]. apply render_settles; [|assumption].
    intros id delay c' Hin. now destruct (Hfresh id delay c' Hin).
  - destruct (find id (timeouts p)) as [c'|] eqn:Hf; [|discriminate].
    injection Hs as <-. cbn [last_shot].
    destruct (find_In _ _ _ Hf) as [delay Hin].
    destruct (Hfresh _ _ _ Hin) as [-> _].
    assert (He' : existsb is_icon_link
                    (elsewhere (doc (clearTimeout id p))) = false) by exact He.
    destruct (runUpdate_doc c (clearTimeout id p) He') as [H1 H2].
    split; [|split; assumption].
    unfold fresh_only, runUpdate, clearTimeout. cbn [timeouts cleanupIds]. split.
    + intros id' delay' c' Hin'. apply filter_In in Hin' as [Hin' _].
      exact (Hfresh _ _ _ Hin').
    + pose proof (filter_length_le
                    (fun e : positive * Z * shot => negb (Pos.eqb (fst (fst e)) id))
                    (timeouts p)). lia.
  - injection Hs as <-. cbn [last_shot].
    destruct (cleanup_clears (cleanupIds p) p) as (Ht & Hd' & Hn).
    { intros id delay c' Hin. now destruct (Hfresh id delay c' Hin). }
    cbv zeta in Ht, Hd', Hn. fold (effectCleanup p) in Ht, Hd', Hn.
    unfold settled, fresh_only. cbn [doc timeouts cleanupIds].
    rewrite Ht, Hd'. cbn [List.length].
    split; [split|split; assumption].
    + intros ? ? ? [].
    + lia.
Qed.

Lemma run_settles evs : forall c p p',
  settled png c p -> run createDonutTimerDataURL evs p = Some p' ->
  settled png (last_shot c evs) p'.
Proof.
  induction evs as [|ev evs IH]; intros c p p' Hset Hrun; cbn [run] in Hrun.
  - injection Hrun as <-. exact Hset.
  - destruct (step createDonutTimerDataURL ev p) as [p1|] eqn:Hs; [|discriminate].
    pose proof (step_settles ev c p p1 Hset Hs) as Hset1.
    specialize (IH _ _ _ Hset1 Hrun).
    destruct ev; exact IH.
Qed.

End WithCanvas.

End RetryProofs.

(** X13.  The favicon never shows a stale render.  On a page without icon
    links outside the head and with a working canvas, after the first
    render and any further renders, retry timeouts and an unmount, in any
    order: at most two retries are pending, all of them closing over the
    last render and all known to the cleanup, and the icon links in the
    head are exactly the three of the last render. *)
Theorem favicon_follows_last_render
    (createDonutTimerDataURL : bool -> R -> Z -> option string)
    (png : bool -> R -> Z -> string)
    (d : Favicon.document) (b : bool) (pr : R)
    (evs : list Retry.event) (p : Retry.page) :
  (forall b' p' size, createDonutTimerDataURL b' p' size = Some (png b' p' size)) ->
  existsb Favicon.is_icon_link (Favicon.elsewhere d) = false ->
  Retry.run createDonutTimerDataURL (Retry.Render b pr :: evs) (Retry.initial d) = Some p ->
  let c := Retry.last_shot (Retry.mkShot b pr) evs in
  Retry.fresh_only c p /\
  filter Favicon.is_icon_link (Favicon.head (Retry.doc p))
  = Favicon.installed (png (Retry.s_isActive c) (Retry.s_progress c) 32%Z)
                      (png (Retry.s_isActive c) (Retry.s_progress c) 16%Z).
Proof.
  intros Hcanvas He Hrun. cbn [Retry.run Retry.step] in Hrun.
  assert (H0 : Retry.settled png (Retry.mkShot b pr)
                 (Retry.effectBody createDonutTimerDataURL (Retry.mkShot b pr)
                    (Retry.effectCleanup (Retry.initial d)))).
  { apply render_settles; [assumption | intros ? ? ? [] | assumption]. }
  destruct (run_settles createDonutTimerDataURL png Hcanvas evs _ _ _ H0 Hrun)
    as (Hf & _ & Hd).
  cbv zeta. auto.
Qed.

Lemma favicon_follows_last_render_witness :
  exists p,
    Retry.run (fun _ _ size => Some (if (size =? 32)%Z then "png32" else "png16")%string)
      [Retry.Render false 0%R; Retry.Timeout 1%positive;
       Retry.Render true 0%R; Retry.Timeout 4%positive; Retry.Timeout 3%positive]
      (Retry.initial
         (Favicon.mkDocument
            [Favicon.mkElement "link" "icon" "/vite.svg" ""] []))
    = Some p /\
    Retry.timeouts p = [] /\
    filter Favicon.is_icon_link (Favicon.head (Retry.doc p))
    = Favicon.installed "png32" "png16".
Proof.
  eexists. split; [vm_compute; reflexivity|]. split; [reflexivity|].
  refine (proj2 (favicon_follows_last_render
            (fun _ _ size => Some (if (size =? 32)%Z then "png32" else "png16")%string)
            (fun _ _ size => (if (size =? 32)%Z then "png32" else "png16")%string)
            (Favicon.mkDocument [Favicon.mkElement "link" "icon" "/vite.svg" ""] [])
            false 0%R
            [Retry.Timeout 1%positive; Retry.Render true 0%R;
             Retry.Timeout 4%positive; Retry.Timeout 3%positive]
            _ _ _ _)).
  - reflexivity.
  - reflexivity.
  - vm_compute. reflexivity.
Defined.
